(** * NXP i.MX6UL SoC support: peripheral descriptors and identification

    A shallow embedding of [soc/nxp/imx6ul/imx6ul.go]: the peripheral
    register constants, the package-level peripheral instances, and the
    accessors [SiliconVersion], [UniqueID], [Model] and [HAB].

    Conventions.  A [uint32] is a [Z] in [0, 2^32); shifts and masks are the
    [Z] bit operations, with the wrap-around written where Go truncates.  A
    [byte] is a [Z] in [0, 256).  Memory-mapped registers live on a [Bus]
    that records every load and store.  Calls into drivers of other packages
    ([ocotp], [snvs]) are calls to a handler supplied by the caller. *)

From Stdlib Require Import ZArith List String Bool Lia.
Import ListNotations.
Local Open Scope Z_scope.

(** ** Machine integers *)

Module U32.
Definition width : Z := 32.
Definition modulus : Z := 2 ^ width.

Definition in_range (v : Z) : Prop := 0 <= v < modulus.

(** Conversion to [uint32]: keeps the low 32 bits. *)
Definition wrap (v : Z) : Z := v mod modulus.

(** [v >> n], [v << n], [v & m], [v | m], [^v] on [uint32]. *)
Definition shr (v n : Z) : Z := Z.shiftr v n.
Definition shl (v n : Z) : Z := wrap (Z.shiftl v n).
Definition and (v m : Z) : Z := Z.land v m.
Definition or (v m : Z) : Z := Z.lor v m.
Definition not (v : Z) : Z := wrap (Z.lnot v).
End U32.

(** Conversion to [byte]: keeps the low 8 bits. *)
Definition byte (v : Z) : Z := v mod 256.

Definition is_byte (b : Z) : Prop := 0 <= b < 256.

(** ** Memory-mapped registers ([internal/reg]) *)

Module reg.
(** One access on the peripheral bus. *)
Inductive Op : Type :=
| Ld (addr val : Z)
| St (addr val : Z).

(** The register file together with the accesses made so far, oldest
    first. *)
Record Bus : Type := mkBus {
  mem : Z -> Z;
  trace : list Op
}.

Definition poke (m : Z -> Z) (addr val : Z) : Z -> Z :=
  fun a => if a =? addr then val else m a.

(** Modelled from the spec: [reg.Read] of [internal/reg], which is not part
    of this package.  Plain register reads cannot fail, the memory is
    always mapped; the result is a [uint32]. *)
Definition Read (addr : Z) (b : Bus) : Z * Bus :=
  let v := U32.wrap (mem b addr) in
  (v, mkBus (mem b) (trace b ++ [Ld addr v])).

(** Modelled from the spec: [reg.Write] of [internal/reg]. *)
Definition Write (addr val : Z) (b : Bus) : Bus :=
  let v := U32.wrap val in
  mkBus (poke (mem b) addr v) (trace b ++ [St addr v]).

(** Modelled from the spec: the field update of [internal/reg] behind the
    clock-gate enable: read the 32-bit register, clear exactly the field
    selected by [mask] at bit position [pos], set it to [val], write the
    register back. *)
Definition SetN (addr pos mask val : Z) (b : Bus) : Bus :=
  let (r, b1) := Read addr b in
  let cleared := U32.and r (U32.not (U32.shl mask pos)) in
  Write addr (U32.or cleared (U32.shl val pos)) b1.

(** The field of [mask] at bit position [pos] of a register value. *)
Definition field (r pos mask : Z) : Z := U32.and (U32.shr r pos) mask.
End reg.

(** ** Clock gating ([CCM_CCGRx]) *)

(** The clock-gate constants [CCM_CCGRn] and [CCGRx_CGn] that the peripheral
    instances name are declared in another file of the package: they are
    parameters of the development.  A gate is a 2-bit field of a control
    register, at one of the positions 0, 2, 4, ..., 30. *)
Record ClockGates : Type := mkClockGates {
  CCM_CCGR1 : Z;
  CCM_CCGR2 : Z;
  CCM_CCGR6 : Z;
  CCGRx_CG0 : Z;
  CCGRx_CG1 : Z;
  CCGRx_CG2 : Z;
  CCGRx_CG3 : Z;
  CCGRx_CG5 : Z;
  CCGRx_CG6 : Z;
  CCGRx_CG14 : Z
}.

Definition valid_gate_position (p : Z) : Prop :=
  0 <= p <= 30 /\ Z.even p = true.

Definition gate_mask : Z := 3.

(** Modelled from the spec: the clock-gate enable primitive every driver
    runs before its first register access.  The spec leaves the value of the
    enabled encoding open: it is the parameter [on], a 2-bit value. *)
Definition clock_gate_enable (on ccgr cg : Z) (b : reg.Bus) : reg.Bus :=
  reg.SetN ccgr cg gate_mask on b.

(** The register value [clock_gate_enable] stores for the contents [r]. *)
Definition gate_enabled_value (on r p : Z) : Z :=
  U32.wrap (U32.or (U32.and r (U32.not (U32.shl gate_mask p))) (U32.shl on p)).

(** ** Peripheral registers *)

(** Central Security Unit *)
Definition CSU_BASE : Z := 0x021c0000.

(** Data Co-Processor (ULL/ULZ only) *)
Definition DCP_BASE : Z := 0x02280000.

(** General Interrupt Controller *)
Definition GIC_BASE : Z := 0x00a00000.

(** General Purpose I/O *)
Definition GPIO1_BASE : Z := 0x0209c000.
Definition GPIO2_BASE : Z := 0x020a0000.
Definition GPIO3_BASE : Z := 0x020a4000.
Definition GPIO4_BASE : Z := 0x020a8000.
Definition GPIO5_BASE : Z := 0x020ac000.

(** I2C *)
Definition I2C1_BASE : Z := 0x021a0000.
Definition I2C2_BASE : Z := 0x021a4000.

(** On-Chip OTP Controller *)
Definition OCOTP_BASE : Z := 0x021bc000.
Definition OCOTP_BANK_BASE : Z := 0x021bc400.

(** On-Chip Random-Access Memory *)
Definition OCRAM_START : Z := 0x00900000.
Definition OCRAM_SIZE : Z := 0x20000.

(** True Random Number Generator (ULL/ULZ only) *)
Definition RNGB_BASE : Z := 0x02284000.

(** Secure Non-Volatile Storage *)
Definition SNVS_BASE : Z := 0x020cc000.

(** TrustZone Address Space Controller *)
Definition TZASC_BASE : Z := 0x021d0000.
Definition TZASC_BYPASS : Z := 0x020e4024.
Definition IOMUXC_GPR_GPR1 : Z := 0x020e4004.
Definition GPR1_TZASC1_BOOT_LOCK : Z := 23.

(** Serial ports *)
Definition UART1_BASE : Z := 0x02020000.
Definition UART2_BASE : Z := 0x021e8000.
Definition UART3_BASE : Z := 0x021ec000.
Definition UART4_BASE : Z := 0x021f0000.

(** USB 2.0 *)
Definition USB_ANALOG1_BASE : Z := 0x020c81a0.
Definition USB_ANALOG2_BASE : Z := 0x020c8200.
Definition USB_ANALOG_DIGPROG : Z := 0x020c8260.
Definition USBPHY1_BASE : Z := 0x020c9000.
Definition USBPHY2_BASE : Z := 0x020ca000.
Definition USB1_BASE : Z := 0x02184000.
Definition USB2_BASE : Z := 0x02184200.

(** SD/MMC *)
Definition USDHC1_BASE : Z := 0x02190000.
Definition USDHC2_BASE : Z := 0x02194000.

(** ** Driver descriptors

    One record per driver type, with the fields the instances below set.
    The clock callbacks the package hands to drivers are functions of
    another file; a descriptor holds a reference to one, never its result. *)

Inductive ClockHook : Type :=
| GetUARTClock
| EnableUSBPLL
| SetUSDHCClock.

Module arm.
Record CPU : Type := mkCPU { }.
End arm.

Module csu.
Record CSU : Type := mkCSU { Base : Z; CCGR : Z; CG : Z }.
End csu.

Module dcp.
Record DCP : Type := mkDCP { Base : Z }.
End dcp.

Module gpio.
Record GPIO : Type := mkGPIO { Index : Z; Base : Z }.
End gpio.

Module i2c.
Record I2C : Type := mkI2C { Index : Z; Base : Z; CCGR : Z; CG : Z }.
End i2c.

Module ocotp.
Record OCOTP : Type := mkOCOTP { Base : Z; BankBase : Z; CCGR : Z; CG : Z }.
End ocotp.

Module rngb.
Record RNGB : Type := mkRNGB { Base : Z }.
End rngb.

Module snvs.
Record SNVS : Type := mkSNVS { Base : Z }.
End snvs.

Module tzc380.
Record TZASC : Type := mkTZASC {
  Base : Z;
  Bypass : Z;
  SecureBootLockReg : Z;
  SecureBootLockPos : Z
}.
End tzc380.

Module uart.
Record UART : Type := mkUART { Index : Z; Base : Z; Clock : ClockHook }.
End uart.

Module usb.
Record USB : Type := mkUSB {
  Index : Z;
  Base : Z;
  CCGR : Z;
  CG : Z;
  Analog : Z;
  PHY : Z;
  EnablePLL : ClockHook
}.
End usb.

Module usdhc.
Record USDHC : Type := mkUSDHC {
  Index : Z;
  Base : Z;
  CCGR : Z;
  CG : Z;
  SetClock : ClockHook
}.
End usdhc.

(** ** Driver methods of other packages

    [ocotp.OCOTP.Init], [ocotp.OCOTP.Read] and [snvs.SNVS.Available] are
    methods of driver packages.  A function of this package that calls them
    is a program over these calls; a driver gives the calls their meaning on
    a world of its own. *)

Definition error : Type := string.

Inductive OcotpCall : Type -> Type :=
| OcotpInit (hw : ocotp.OCOTP) : OcotpCall unit
| OcotpRead (hw : ocotp.OCOTP) (bank word : Z) : OcotpCall (Z * option error).

Inductive SnvsCall : Type -> Type :=
| SnvsAvailable (hw : snvs.SNVS) : SnvsCall bool.

(** Programs over a family of calls [E], returning an [R]. *)
Inductive Prog (E : Type -> Type) (R : Type) : Type :=
| Ret (r : R)
| Vis (A : Type) (e : E A) (k : A -> Prog E R).

Arguments Ret {E R} r.
Arguments Vis {E R A} e k.

Fixpoint bind {E : Type -> Type} {R S : Type}
  (p : Prog E R) (f : R -> Prog E S) : Prog E S :=
  match p with
  | Ret r => f r
  | Vis e k => Vis e (fun a => bind (k a) f)
  end.

Definition call {E : Type -> Type} {A : Type} (e : E A) : Prog E A :=
  Vis e Ret.

Declare Scope prog_scope.
Delimit Scope prog_scope with prog.
Notation "x <- c ;; k" := (bind c (fun x => k))
  (at level 61, c at next level, right associativity) : prog_scope.
Notation "' pat <- c ;; k" := (bind c (fun x => match x with pat => k end))
  (at level 61, pat pattern, c at next level, right associativity) : prog_scope.
Notation "c ;; k" := (bind c (fun _ => k))
  (at level 61, right associativity) : prog_scope.

(** A driver answers each call on its world. *)
Definition Driver (E : Type -> Type) (W : Type) : Type :=
  forall A : Type, E A -> W -> A * W.

Fixpoint run {E : Type -> Type} {W R : Type}
  (d : Driver E W) (p : Prog E R) (w : W) : R * W :=
  match p with
  | Ret r => (r, w)
  | Vis e k => let (a, w') := d _ e w in run d (k a) w'
  end.

(** One call of a run: the world it was made in, the call, its answer. *)
Inductive Event (E : Type -> Type) (W : Type) : Type :=
| Ev (A : Type) (w : W) (e : E A) (a : A).

Arguments Ev {E W A} w e a.

(** The calls of a run, in the order they are made. *)
Fixpoint history {E : Type -> Type} {W R : Type}
  (d : Driver E W) (p : Prog E R) (w : W) : list (Event E W) :=
  match p with
  | Ret _ => []
  | Vis e k => let (a, w') := d _ e w in Ev w e a :: history d (k a) w'
  end.

Definition world_of {E : Type -> Type} {W : Type} (ev : Event E W) : W :=
  match ev with Ev w _ _ => w end.

(** Views of a fuse-box event. *)
Inductive OcotpLabel : Type :=
| LInit (hw : ocotp.OCOTP)
| LRead (hw : ocotp.OCOTP) (bank word : Z).

Definition ocotp_label {W : Type} (ev : Event OcotpCall W) : OcotpLabel :=
  match ev with
  | Ev _ (OcotpInit hw) _ => LInit hw
  | Ev _ (OcotpRead hw bank word) _ => LRead hw bank word
  end.

Definition is_read {W : Type} (ev : Event OcotpCall W) : bool :=
  match ev with
  | Ev _ (OcotpRead _ _ _) _ => true
  | Ev _ (OcotpInit _) _ => false
  end.

Definition read_result {A : Type} (e : OcotpCall A)
  : A -> option (Z * option error) :=
  match e in OcotpCall T return T -> option (Z * option error) with
  | OcotpInit _ => fun _ => None
  | OcotpRead _ _ _ => fun a => Some a
  end.

Definition event_result {W : Type} (ev : Event OcotpCall W)
  : option (Z * option error) :=
  match ev with Ev _ e a => read_result e a end.

Fixpoint read_results {W : Type} (h : list (Event OcotpCall W))
  : list (Z * option error) :=
  match h with
  | [] => []
  | ev :: h' =>
      match event_result ev with
      | Some r => r :: read_results h'
      | None => read_results h'
      end
  end.

(** The fuse words a run read: bank, word and the value returned. *)
Definition fuse_read {A : Type} (e : OcotpCall A) : A -> option (Z * Z * Z) :=
  match e in OcotpCall T return T -> option (Z * Z * Z) with
  | OcotpInit _ => fun _ => None
  | OcotpRead _ bank word => fun a => Some (bank, word, fst a)
  end.

Fixpoint fuse_reads {W : Type} (h : list (Event OcotpCall W))
  : list (Z * Z * Z) :=
  match h with
  | [] => []
  | Ev _ e a :: h' =>
      match fuse_read e a with
      | Some r => r :: fuse_reads h'
      | None => fuse_reads h'
      end
  end.

(** Whether some read of a run returned an error. *)
Definition read_failed {W : Type} (h : list (Event OcotpCall W)) : bool :=
  existsb (fun r => match snd r with Some _ => true | None => false end)
          (read_results h).

(** ** Peripheral instances *)

Section Instances.
Variable K : ClockGates.

(** ARM core *)
Definition ARM : arm.CPU := arm.mkCPU.

(** Central Security Unit *)
Definition CSU : csu.CSU :=
  {| csu.Base := CSU_BASE;
     csu.CCGR := CCM_CCGR1 K;
     csu.CG := CCGRx_CG14 K |}.

(** Data Co-Processor (ULL/ULZ only) *)
Definition DCP : dcp.DCP := {| dcp.Base := DCP_BASE |}.

(** GPIO controllers 1 to 5 *)
Definition GPIO1 : gpio.GPIO := {| gpio.Index := 1; gpio.Base := GPIO1_BASE |}.
Definition GPIO2 : gpio.GPIO := {| gpio.Index := 2; gpio.Base := GPIO2_BASE |}.
Definition GPIO3 : gpio.GPIO := {| gpio.Index := 3; gpio.Base := GPIO3_BASE |}.
Definition GPIO4 : gpio.GPIO := {| gpio.Index := 4; gpio.Base := GPIO4_BASE |}.
Definition GPIO5 : gpio.GPIO := {| gpio.Index := 5; gpio.Base := GPIO5_BASE |}.

(** I2C controller 1 *)
Definition I2C1 : i2c.I2C :=
  {| i2c.Index := 1;
     i2c.Base := I2C1_BASE;
     i2c.CCGR := CCM_CCGR2 K;
     i2c.CG := CCGRx_CG3 K |}.

(** I2C controller 2 *)
Definition I2C2 : i2c.I2C :=
  {| i2c.Index := 2;
     i2c.Base := I2C2_BASE;
     i2c.CCGR := CCM_CCGR2 K;
     i2c.CG := CCGRx_CG5 K |}.

(** On-Chip OTP Controller *)
Definition OCOTP : ocotp.OCOTP :=
  {| ocotp.Base := OCOTP_BASE;
     ocotp.BankBase := OCOTP_BANK_BASE;
     ocotp.CCGR := CCM_CCGR2 K;
     ocotp.CG := CCGRx_CG6 K |}.

(** True Random Number Generator (ULL/ULZ only) *)
Definition RNGB : rngb.RNGB := {| rngb.Base := RNGB_BASE |}.

(** Secure Non-Volatile Storage *)
Definition SNVS : snvs.SNVS := {| snvs.Base := SNVS_BASE |}.

(** TrustZone Address Space Controller *)
Definition TZASC : tzc380.TZASC :=
  {| tzc380.Base := TZASC_BASE;
     tzc380.Bypass := TZASC_BYPASS;
     tzc380.SecureBootLockReg := IOMUXC_GPR_GPR1;
     tzc380.SecureBootLockPos := GPR1_TZASC1_BOOT_LOCK |}.

(** Serial port 1 *)
Definition UART1 : uart.UART :=
  {| uart.Index := 1; uart.Base := UART1_BASE; uart.Clock := GetUARTClock |}.

(** Serial port 2 *)
Definition UART2 : uart.UART :=
  {| uart.Index := 2; uart.Base := UART2_BASE; uart.Clock := GetUARTClock |}.

(** USB controller 1 *)
Definition USB1 : usb.USB :=
  {| usb.Index := 1;
     usb.Base := USB1_BASE;
     usb.CCGR := CCM_CCGR6 K;
     usb.CG := CCGRx_CG0 K;
     usb.Analog := USB_ANALOG1_BASE;
     usb.PHY := USBPHY1_BASE;
     usb.EnablePLL := EnableUSBPLL |}.

(** USB controller 2 *)
Definition USB2 : usb.USB :=
  {| usb.Index := 2;
     usb.Base := USB2_BASE;
     usb.CCGR := CCM_CCGR6 K;
     usb.CG := CCGRx_CG0 K;
     usb.Analog := USB_ANALOG2_BASE;
     usb.PHY := USBPHY2_BASE;
     usb.EnablePLL := EnableUSBPLL |}.

(** SD/MMC controller 1 *)
Definition USDHC1 : usdhc.USDHC :=
  {| usdhc.Index := 1;
     usdhc.Base := USDHC1_BASE;
     usdhc.CCGR := CCM_CCGR6 K;
     usdhc.CG := CCGRx_CG1 K;
     usdhc.SetClock := SetUSDHCClock |}.

(** SD/MMC controller 2 *)
Definition USDHC2 : usdhc.USDHC :=
  {| usdhc.Index := 2;
     usdhc.Base := USDHC2_BASE;
     usdhc.CCGR := CCM_CCGR6 K;
     usdhc.CG := CCGRx_CG2 K;
     usdhc.SetClock := SetUSDHCClock |}.

End Instances.

(** ** The registry of instances *)

(** A peripheral instance of any driver type. *)
Inductive Peripheral : Type :=
| PCpu (p : arm.CPU)
| PCsu (p : csu.CSU)
| PDcp (p : dcp.DCP)
| PGpio (p : gpio.GPIO)
| PI2c (p : i2c.I2C)
| POcotp (p : ocotp.OCOTP)
| PRngb (p : rngb.RNGB)
| PSnvs (p : snvs.SNVS)
| PTzasc (p : tzc380.TZASC)
| PUart (p : uart.UART)
| PUsb (p : usb.USB)
| PUsdhc (p : usdhc.USDHC).

(** The base address of an instance; the ARM core has none. *)
Definition base_of (p : Peripheral) : option Z :=
  match p with
  | PCpu _ => None
  | PCsu d => Some (csu.Base d)
  | PDcp d => Some (dcp.Base d)
  | PGpio d => Some (gpio.Base d)
  | PI2c d => Some (i2c.Base d)
  | POcotp d => Some (ocotp.Base d)
  | PRngb d => Some (rngb.Base d)
  | PSnvs d => Some (snvs.Base d)
  | PTzasc d => Some (tzc380.Base d)
  | PUart d => Some (uart.Base d)
  | PUsb d => Some (usb.Base d)
  | PUsdhc d => Some (usdhc.Base d)
  end.

(** Every block address an instance holds: its base and, where the driver
    has them, the fuse bank, USB analog and USB PHY blocks. *)
Definition blocks_of (p : Peripheral) : list Z :=
  match p with
  | POcotp d => [ocotp.Base d; ocotp.BankBase d]
  | PUsb d => [usb.Base d; usb.Analog d; usb.PHY d]
  | _ => match base_of p with Some a => [a] | None => [] end
  end.

(** The clock gate of an instance: control register and field position. *)
Definition gate_of (p : Peripheral) : option (Z * Z) :=
  match p with
  | PCsu d => Some (csu.CCGR d, csu.CG d)
  | PI2c d => Some (i2c.CCGR d, i2c.CG d)
  | POcotp d => Some (ocotp.CCGR d, ocotp.CG d)
  | PUsb d => Some (usb.CCGR d, usb.CG d)
  | PUsdhc d => Some (usdhc.CCGR d, usdhc.CG d)
  | _ => None
  end.

(** The package-level variables, in declaration order. *)
Definition instances (K : ClockGates) : list (string * Peripheral) :=
  [ ("ARM", PCpu ARM);
    ("CSU", PCsu (CSU K));
    ("DCP", PDcp DCP);
    ("GPIO1", PGpio GPIO1);
    ("GPIO2", PGpio GPIO2);
    ("GPIO3", PGpio GPIO3);
    ("GPIO4", PGpio GPIO4);
    ("GPIO5", PGpio GPIO5);
    ("I2C1", PI2c (I2C1 K));
    ("I2C2", PI2c (I2C2 K));
    ("OCOTP", POcotp (OCOTP K));
    ("RNGB", PRngb RNGB);
    ("SNVS", PSnvs SNVS);
    ("TZASC", PTzasc TZASC);
    ("UART1", PUart UART1);
    ("UART2", PUart UART2);
    ("USB1", PUsb (USB1 K));
    ("USB2", PUsb (USB2 K));
    ("USDHC1", PUsdhc (USDHC1 K));
    ("USDHC2", PUsdhc (USDHC2 K)) ]%string.

Fixpoint somes {A : Type} (l : list (option A)) : list A :=
  match l with
  | [] => []
  | Some a :: l' => a :: somes l'
  | None :: l' => somes l'
  end.

Definition bases (K : ClockGates) : list Z :=
  somes (map (fun np => base_of (snd np)) (instances K)).

Definition blocks (K : ClockGates) : list Z :=
  flat_map (fun np => blocks_of (snd np)) (instances K).

(** ** Bring-up of the package variables

    The variable block binds each variable to the address of a composite
    literal.  A field of a literal is initialised by a constant, by a
    function value, or by the result of a call; only a call runs code, and
    the code it runs may load and store registers.  The machine holds the
    package's variables, the peripheral bus, and the functions called so
    far. *)

Inductive FieldInit : Type :=
| FInt (v : Z)
| FFunc (f : ClockHook)
| FCall (f : string) (args : list Z).

Inductive Value : Type :=
| VInt (v : Z)
| VFunc (f : ClockHook).

Record Literal : Type := mkLiteral {
  lit_type : string;
  lit_fields : list (string * FieldInit)
}.

(** What calling a function does: any function of the arguments and the
    bus. *)
Definition Env : Type := string -> list Z -> reg.Bus -> Z * reg.Bus.

Record Machine : Type := mkMachine {
  globals : list (string * Peripheral);
  bus : reg.Bus;
  called : list string
}.

Definition eval_field (env : Env) (f : FieldInit) (m : Machine)
  : Value * Machine :=
  match f with
  | FInt v => (VInt v, m)
  | FFunc h => (VFunc h, m)
  | FCall fn args =>
      let (v, b') := env fn args (bus m) in
      (VInt v, mkMachine (globals m) b' (called m ++ [fn]))
  end.

(** The fields of a literal are evaluated in the order they are written. *)
Fixpoint eval_fields (env : Env) (fs : list (string * FieldInit)) (m : Machine)
  : list (string * Value) * Machine :=
  match fs with
  | [] => ([], m)
  | (n, f) :: fs' =>
      let (v, m1) := eval_field env f m in
      let (vs, m2) := eval_fields env fs' m1 in
      ((n, v) :: vs, m2)
  end.

Fixpoint field_value (n : string) (vs : list (string * Value))
  : option Value :=
  match vs with
  | [] => None
  | (n', v) :: vs' => if String.eqb n' n then Some v else field_value n vs'
  end.

(** An integer field; a field the literal leaves out has the zero value. *)
Definition int_field (n : string) (vs : list (string * Value)) : option Z :=
  match field_value n vs with
  | Some (VInt v) => Some v
  | Some (VFunc _) => None
  | None => Some 0
  end.

(** A function field of a descriptor. *)
Definition func_field (n : string) (vs : list (string * Value))
  : option ClockHook :=
  match field_value n vs with
  | Some (VFunc f) => Some f
  | _ => None
  end.

Definition opt_bind {A B : Type} (o : option A) (f : A -> option B)
  : option B :=
  match o with
  | Some a => f a
  | None => None
  end.

Notation "x <-? o ;; k" := (opt_bind o (fun x => k))
  (at level 61, o at next level, right associativity).

(** The descriptor a literal of a driver type denotes. *)
Definition build (ty : string) (vs : list (string * Value))
  : option Peripheral :=
  (if String.eqb ty "arm.CPU" then Some (PCpu arm.mkCPU)
   else if String.eqb ty "csu.CSU" then
     b <-? int_field "Base" vs ;; c <-? int_field "CCGR" vs ;;
     g <-? int_field "CG" vs ;;
     Some (PCsu (csu.mkCSU b c g))
   else if String.eqb ty "dcp.DCP" then
     b <-? int_field "Base" vs ;; Some (PDcp (dcp.mkDCP b))
   else if String.eqb ty "gpio.GPIO" then
     i <-? int_field "Index" vs ;; b <-? int_field "Base" vs ;;
     Some (PGpio (gpio.mkGPIO i b))
   else if String.eqb ty "i2c.I2C" then
     i <-? int_field "Index" vs ;; b <-? int_field "Base" vs ;;
     c <-? int_field "CCGR" vs ;; g <-? int_field "CG" vs ;;
     Some (PI2c (i2c.mkI2C i b c g))
   else if String.eqb ty "ocotp.OCOTP" then
     b <-? int_field "Base" vs ;; k <-? int_field "BankBase" vs ;;
     c <-? int_field "CCGR" vs ;; g <-? int_field "CG" vs ;;
     Some (POcotp (ocotp.mkOCOTP b k c g))
   else if String.eqb ty "rngb.RNGB" then
     b <-? int_field "Base" vs ;; Some (PRngb (rngb.mkRNGB b))
   else if String.eqb ty "snvs.SNVS" then
     b <-? int_field "Base" vs ;; Some (PSnvs (snvs.mkSNVS b))
   else if String.eqb ty "tzc380.TZASC" then
     b <-? int_field "Base" vs ;; y <-? int_field "Bypass" vs ;;
     r <-? int_field "SecureBootLockReg" vs ;;
     q <-? int_field "SecureBootLockPos" vs ;;
     Some (PTzasc (tzc380.mkTZASC b y r q))
   else if String.eqb ty "uart.UART" then
     i <-? int_field "Index" vs ;; b <-? int_field "Base" vs ;;
     f <-? func_field "Clock" vs ;;
     Some (PUart (uart.mkUART i b f))
   else if String.eqb ty "usb.USB" then
     i <-? int_field "Index" vs ;; b <-? int_field "Base" vs ;;
     c <-? int_field "CCGR" vs ;; g <-? int_field "CG" vs ;;
     a <-? int_field "Analog" vs ;; y <-? int_field "PHY" vs ;;
     f <-? func_field "EnablePLL" vs ;;
     Some (PUsb (usb.mkUSB i b c g a y f))
   else if String.eqb ty "usdhc.USDHC" then
     i <-? int_field "Index" vs ;; b <-? int_field "Base" vs ;;
     c <-? int_field "CCGR" vs ;; g <-? int_field "CG" vs ;;
     f <-? func_field "SetClock" vs ;;
     Some (PUsdhc (usdhc.mkUSDHC i b c g f))
   else None)%string.

(** [var name = &T{fields}]: evaluate the fields, bind the variable. *)
Definition declare (env : Env) (name : string) (l : Literal) (m : Machine)
  : option Machine :=
  let (vs, m1) := eval_fields env (lit_fields l) m in
  p <-? build (lit_type l) vs ;;
  Some (mkMachine (globals m1 ++ [(name, p)]) (bus m1) (called m1)).

(** The declarations of a block run in the order they are written. *)
Fixpoint eval_block (env : Env) (blk : list (string * Literal)) (m : Machine)
  : option Machine :=
  match blk with
  | [] => Some m
  | (n, l) :: rest => m1 <-? declare env n l m ;; eval_block env rest m1
  end.

(** The variable block of the package. *)
Definition var_block (K : ClockGates) : list (string * Literal) :=
  [ ("ARM", mkLiteral "arm.CPU" []);
    ("CSU", mkLiteral "csu.CSU"
       [("Base", FInt CSU_BASE);
        ("CCGR", FInt (CCM_CCGR1 K));
        ("CG", FInt (CCGRx_CG14 K))]);
    ("DCP", mkLiteral "dcp.DCP" [("Base", FInt DCP_BASE)]);
    ("GPIO1", mkLiteral "gpio.GPIO"
       [("Index", FInt 1); ("Base", FInt GPIO1_BASE)]);
    ("GPIO2", mkLiteral "gpio.GPIO"
       [("Index", FInt 2); ("Base", FInt GPIO2_BASE)]);
    ("GPIO3", mkLiteral "gpio.GPIO"
       [("Index", FInt 3); ("Base", FInt GPIO3_BASE)]);
    ("GPIO4", mkLiteral "gpio.GPIO"
       [("Index", FInt 4); ("Base", FInt GPIO4_BASE)]);
    ("GPIO5", mkLiteral "gpio.GPIO"
       [("Index", FInt 5); ("Base", FInt GPIO5_BASE)]);
    ("I2C1", mkLiteral "i2c.I2C"
       [("Index", FInt 1);
        ("Base", FInt I2C1_BASE);
        ("CCGR", FInt (CCM_CCGR2 K));
        ("CG", FInt (CCGRx_CG3 K))]);
    ("I2C2", mkLiteral "i2c.I2C"
       [("Index", FInt 2);
        ("Base", FInt I2C2_BASE);
        ("CCGR", FInt (CCM_CCGR2 K));
        ("CG", FInt (CCGRx_CG5 K))]);
    ("OCOTP", mkLiteral "ocotp.OCOTP"
       [("Base", FInt OCOTP_BASE);
        ("BankBase", FInt OCOTP_BANK_BASE);
        ("CCGR", FInt (CCM_CCGR2 K));
        ("CG", FInt (CCGRx_CG6 K))]);
    ("RNGB", mkLiteral "rngb.RNGB" [("Base", FInt RNGB_BASE)]);
    ("SNVS", mkLiteral "snvs.SNVS" [("Base", FInt SNVS_BASE)]);
    ("TZASC", mkLiteral "tzc380.TZASC"
       [("Base", FInt TZASC_BASE);
        ("Bypass", FInt TZASC_BYPASS);
        ("SecureBootLockReg", FInt IOMUXC_GPR_GPR1);
        ("SecureBootLockPos", FInt GPR1_TZASC1_BOOT_LOCK)]);
    ("UART1", mkLiteral "uart.UART"
       [("Index", FInt 1);
        ("Base", FInt UART1_BASE);
        ("Clock", FFunc GetUARTClock)]);
    ("UART2", mkLiteral "uart.UART"
       [("Index", FInt 2);
        ("Base", FInt UART2_BASE);
        ("Clock", FFunc GetUARTClock)]);
    ("USB1", mkLiteral "usb.USB"
       [("Index", FInt 1);
        ("Base", FInt USB1_BASE);
        ("CCGR", FInt (CCM_CCGR6 K));
        ("CG", FInt (CCGRx_CG0 K));
        ("Analog", FInt USB_ANALOG1_BASE);
        ("PHY", FInt USBPHY1_BASE);
        ("EnablePLL", FFunc EnableUSBPLL)]);
    ("USB2", mkLiteral "usb.USB"
       [("Index", FInt 2);
        ("Base", FInt USB2_BASE);
        ("CCGR", FInt (CCM_CCGR6 K));
        ("CG", FInt (CCGRx_CG0 K));
        ("Analog", FInt USB_ANALOG2_BASE);
        ("PHY", FInt USBPHY2_BASE);
        ("EnablePLL", FFunc EnableUSBPLL)]);
    ("USDHC1", mkLiteral "usdhc.USDHC"
       [("Index", FInt 1);
        ("Base", FInt USDHC1_BASE);
        ("CCGR", FInt (CCM_CCGR6 K));
        ("CG", FInt (CCGRx_CG1 K));
        ("SetClock", FFunc SetUSDHCClock)]);
    ("USDHC2", mkLiteral "usdhc.USDHC"
       [("Index", FInt 2);
        ("Base", FInt USDHC2_BASE);
        ("CCGR", FInt (CCM_CCGR6 K));
        ("CG", FInt (CCGRx_CG2 K));
        ("SetClock", FFunc SetUSDHCClock)]) ]%string.

(** Bring-up: the variable block runs once, before anything else. *)
Definition package_vars (env : Env) (K : ClockGates) (m : Machine)
  : option Machine :=
  eval_block env (var_block K) m.

(** A field initialiser that runs no code. *)
Definition is_value (f : FieldInit) : bool :=
  match f with
  | FInt _ | FFunc _ => true
  | FCall _ _ => false
  end.

Definition calls_nothing (blk : list (string * Literal)) : bool :=
  forallb (fun nl => forallb (fun nf => is_value (snd nf))
                             (lit_fields (snd nl))) blk.

(** The pure part of a block without calls: the descriptors it denotes. *)
Fixpoint value_of_fields (fs : list (string * FieldInit))
  : list (string * Value) :=
  match fs with
  | [] => []
  | (n, FInt v) :: fs' => (n, VInt v) :: value_of_fields fs'
  | (n, FFunc h) :: fs' => (n, VFunc h) :: value_of_fields fs'
  | (n, FCall _ _) :: fs' => value_of_fields fs'
  end.

Fixpoint build_all (blk : list (string * Literal))
  : option (list (string * Peripheral)) :=
  match blk with
  | [] => Some []
  | (n, l) :: rest =>
      p <-? build (lit_type l) (value_of_fields (lit_fields l)) ;;
      ps <-? build_all rest ;;
      Some ((n, p) :: ps)
  end.

(** The instance bound to a variable, if any. *)
Fixpoint lookup (name : string) (g : list (string * Peripheral))
  : option Peripheral :=
  match g with
  | [] => None
  | (n, p) :: g' => if String.eqb n name then Some p else lookup name g'
  end.

(** ** Starting a peripheral *)

(** Whether the clock gate of an instance holds the enabled encoding [on];
    an instance without a gate is always clocked. *)
Definition powered (on : Z) (b : reg.Bus) (p : Peripheral) : bool :=
  match gate_of p with
  | Some (ccgr, cg) => reg.field (reg.mem b ccgr) cg gate_mask =? on
  | None => true
  end.

(** Modelled from the spec: what the [Init] of a driver does to start its
    instance, which is not part of this package: the clock-gate enable on
    the gate the instance names. *)
Definition driver_Init (on : Z) (p : Peripheral) (b : reg.Bus) : reg.Bus :=
  match gate_of p with
  | Some (ccgr, cg) => clock_gate_enable on ccgr cg b
  | None => b
  end.

(** A variable block that calls a function in an initialiser, and a
    function that enables a clock gate: what the package's block does not
    contain. *)
Definition eager_block (K : ClockGates) : list (string * Literal) :=
  [ ("OCOTP", mkLiteral "ocotp.OCOTP"
       [("Base", FInt OCOTP_BASE);
        ("BankBase", FInt OCOTP_BANK_BASE);
        ("CCGR", FCall "enable" [CCM_CCGR2 K; CCGRx_CG6 K]);
        ("CG", FInt (CCGRx_CG6 K))]) ]%string.

Definition enabling_env (on : Z) : Env :=
  fun fn args b =>
    match args with
    | [ccgr; cg] => (ccgr, clock_gate_enable on ccgr cg b)
    | _ => (0, b)
    end.

(** ** Little-endian byte order ([encoding/binary]) *)

(** [b[i] = x] on an array or a slice of it; no effect out of range (the two
    slices written below are in range by construction). *)
Fixpoint store (b : list Z) (i : nat) (x : Z) : list Z :=
  match b, i with
  | [], _ => []
  | _ :: t, O => x :: t
  | h :: t, S i' => h :: store t i' x
  end.

(** [binary.LittleEndian.PutUint32(b[lo:lo+4], v)]. *)
Definition PutUint32 (b : list Z) (lo : nat) (v : Z) : list Z :=
  let b := store b lo (byte v) in
  let b := store b (lo + 1) (byte (U32.shr v 8)) in
  let b := store b (lo + 2) (byte (U32.shr v 16)) in
  store b (lo + 3) (byte (U32.shr v 24)).

(** The number a little-endian byte sequence denotes. *)
Fixpoint le_value (b : list Z) : Z :=
  match b with
  | [] => 0
  | x :: t => x + 256 * le_value t
  end.

(** ** Identification and security state *)

Local Open Scope prog_scope.

(** [SiliconVersion] returns the SoC silicon version information
    (p3945, 57.4.11 Chip Silicon Version (USB_ANALOG_DIGPROG), IMX6ULLRM). *)
Definition SiliconVersion (b : reg.Bus) : (Z * Z * Z * Z) * reg.Bus :=
  let (sv, b') := reg.Read USB_ANALOG_DIGPROG b in
  let family := U32.and (U32.shr sv 16) 0xff in
  let revMajor := U32.and (U32.shr sv 8) 0xff in
  let revMinor := U32.and sv 0xff in
  ((sv, family, revMajor, revMinor), b').

(** [UniqueID] returns the NXP SoC Device Unique 64-bit ID. *)
Definition UniqueID (K : ClockGates) : Prog OcotpCall (list Z) :=
  let uid := repeat 0 8 in
  call (OcotpInit (OCOTP K)) ;;
  '(cfg0, _) <- call (OcotpRead (OCOTP K) 0 1) ;;
  '(cfg1, _) <- call (OcotpRead (OCOTP K) 0 2) ;;
  let uid := PutUint32 uid 0 cfg0 in
  let uid := PutUint32 uid 4 cfg1 in
  Ret uid.

(** [Model] returns the SoC model name.  The family codes [IMX6UL] and
    [IMX6ULL] and the variable [Family] are declared in another file of the
    package: they are arguments here. *)
Definition Model (IMX6UL IMX6ULL Family : Z) : string :=
  if Family =? IMX6UL then "i.MX6UL"%string
  else if Family =? IMX6ULL then "i.MX6ULL"%string
  else "unknown"%string.

(** [HAB] returns whether the SoC is in Trusted or Secure state (indicating
    that Secure Boot is enabled). *)
Definition HAB : Prog SnvsCall bool :=
  call (SnvsAvailable SNVS).

Definition snvs_label {W : Type} (ev : Event SnvsCall W) : snvs.SNVS :=
  match ev with Ev _ (SnvsAvailable hw) _ => hw end.

(** ** Reference devices *)

(** Modelled from the spec: the fuse-box driver ([soc/nxp/ocotp]), which is
    not part of this package.  [Init] performs the clock-gate enable; a read
    needs the gate, and fails with a busy/timeout condition while the
    controller is busy; a failed read returns the zero value with its
    error. *)
Record FuseBox : Type := mkFuseBox {
  gate_on : bool;
  busy : bool;
  fuses : Z -> Z -> Z;
  bus_fault : bool
}.

Definition fusebox_driver : Driver OcotpCall FuseBox :=
  fun A e =>
    match e in OcotpCall T return FuseBox -> T * FuseBox with
    | OcotpInit _ => fun w =>
        (tt, mkFuseBox true (busy w) (fuses w) (bus_fault w))
    | OcotpRead _ bank word => fun w =>
        if negb (gate_on w) then
          ((0, Some "bus fault"%string),
           mkFuseBox (gate_on w) (busy w) (fuses w) true)
        else if busy w then ((0, Some "timeout"%string), w)
        else ((U32.wrap (fuses w bank word), None), w)
    end.

(** A device whose fuses all read zero, and one that is stuck busy. *)
Definition blank_fusebox : FuseBox := mkFuseBox false false (fun _ _ => 0) false.
Definition stuck_fusebox : FuseBox := mkFuseBox false true (fun _ _ => 0) false.

(** A device with the two identifier words programmed. *)
Definition sample_fusebox : FuseBox :=
  mkFuseBox false false
    (fun bank word =>
       if (bank =? 0) && (word =? 1) then 0x12345678
       else if (bank =? 0) && (word =? 2) then 0x9ABCDEF0
       else 0)
    false.

(** Modelled from the spec: the secure-storage driver ([soc/nxp/snvs]),
    which is not part of this package.  [Available] reads the
    hardware-latched availability flag. *)
Record SecureStorage : Type := mkSecureStorage {
  available : bool
}.

Definition snvs_driver : Driver SnvsCall SecureStorage :=
  fun A e =>
    match e in SnvsCall T return SecureStorage -> T * SecureStorage with
    | SnvsAvailable _ => fun w => (available w, w)
    end.

Definition toggle_available (w : SecureStorage) : SecureStorage :=
  mkSecureStorage (negb (available w)).

(** Sample clock-gate constants: the control registers of the clock
    controller and the field positions 2n. *)
Definition sample_gates : ClockGates :=
  {| CCM_CCGR1 := 0x020c406c;
     CCM_CCGR2 := 0x020c4070;
     CCM_CCGR6 := 0x020c4080;
     CCGRx_CG0 := 0;
     CCGRx_CG1 := 2;
     CCGRx_CG2 := 4;
     CCGRx_CG3 := 6;
     CCGRx_CG5 := 10;
     CCGRx_CG6 := 12;
     CCGRx_CG14 := 28 |}.

(** A bus whose registers all hold [v]. *)
Definition flat_bus (v : Z) : reg.Bus := reg.mkBus (fun _ => v) [].

(** ** The failure contract of the specification for [UniqueID]

    A failed fuse read is surfaced when some test on the returned identifier
    tells the runs with a failed read from the runs without. *)
Definition surfaces_read_failure (K : ClockGates) : Prop :=
  exists failed : list Z -> bool,
    forall (W : Type) (d : Driver OcotpCall W) (w : W),
      failed (fst (run d (UniqueID K) w))
      = read_failed (history d (UniqueID K) w).

(** ** Views of the instance table *)

(** Every register address an instance holds: its block addresses and, for
    the TrustZone controller, the bypass and boot-lock registers. *)
Definition addresses_of (p : Peripheral) : list Z :=
  match p with
  | PTzasc d =>
      [tzc380.Base d; tzc380.Bypass d; tzc380.SecureBootLockReg d]
  | _ => blocks_of p
  end.

(** The addresses the package binds into instances, and the identification
    register [SiliconVersion] loads. *)
Definition register_addresses (K : ClockGates) : list Z :=
  flat_map (fun np => addresses_of (snd np)) (instances K)
  ++ [USB_ANALOG_DIGPROG].

Definition in_OCRAM (a : Z) : Prop :=
  OCRAM_START <= a < OCRAM_START + OCRAM_SIZE.

(** The instance index of the drivers that number their instances. *)
Definition index_of (p : Peripheral) : option Z :=
  match p with
  | PGpio d => Some (gpio.Index d)
  | PI2c d => Some (i2c.Index d)
  | PUart d => Some (uart.Index d)
  | PUsb d => Some (usb.Index d)
  | PUsdhc d => Some (usdhc.Index d)
  | _ => None
  end.

(** The driver type of an instance. *)
Definition driver_of (p : Peripheral) : string :=
  match p with
  | PCpu _ => "arm"
  | PCsu _ => "csu"
  | PDcp _ => "dcp"
  | PGpio _ => "gpio"
  | PI2c _ => "i2c"
  | POcotp _ => "ocotp"
  | PRngb _ => "rngb"
  | PSnvs _ => "snvs"
  | PTzasc _ => "tzc380"
  | PUart _ => "uart"
  | PUsb _ => "usb"
  | PUsdhc _ => "usdhc"
  end%string.

(** ** Proof automation *)

(** Case analysis on an entry of the instance table. *)
Ltac pick_instance H :=
  cbn [instances In] in H;
  repeat (destruct H as [H | H]; [injection H as <- <- | ]);
  [.. | contradiction].

(** The gate fields of an instance literal. *)
Ltac gate_fields G :=
  unfold CSU, I2C1, I2C2, OCOTP, USB1, USB2, USDHC1, USDHC2 in G;
  cbn [gate_of csu.CCGR csu.CG i2c.CCGR i2c.CG ocotp.CCGR ocotp.CG
       usb.CCGR usb.CG usdhc.CCGR usdhc.CG] in G.

(** * Properties *)

(** ** Bits of machine integers *)

Lemma wrap_small (v : Z) : U32.in_range v -> U32.wrap v = v.
Proof. intros H. apply Z.mod_small. exact H. Qed.

Lemma wrap_in_range (v : Z) : U32.in_range (U32.wrap v).
Proof. apply Z.mod_pos_bound. reflexivity. Qed.

Lemma testbit_wrap (v i : Z) :
  Z.testbit (U32.wrap v) i = (i <? 32) && Z.testbit v i.
Proof.
  unfold U32.wrap, U32.modulus, U32.width.
  destruct (Z.ltb_spec i 32) as [Hlt | Hge].
  - destruct (Z.neg_nonneg_cases i) as [Hneg | Hpos].
    + now rewrite !Z.testbit_neg_r.
    + now rewrite Z.mod_pow2_bits_low.
  - apply Z.mod_pow2_bits_high. lia.
Qed.

Lemma testbit_in_range_high (v i : Z) :
  U32.in_range v -> 32 <= i -> Z.testbit v i = false.
Proof.
  intros Hv Hi. rewrite <- (wrap_small v Hv), testbit_wrap.
  destruct (Z.ltb_spec i 32); [lia | reflexivity].
Qed.

Lemma testbit_two_bits (on j : Z) :
  0 <= on < 4 -> 2 <= j -> Z.testbit on j = false.
Proof.
  intros Hon Hj.
  rewrite <- (Z.mod_small on (2 ^ 2)) by (change (2 ^ 2) with 4; lia).
  apply Z.mod_pow2_bits_high. lia.
Qed.

Lemma testbit_gate_mask (j : Z) :
  Z.testbit gate_mask j = (0 <=? j) && (j <? 2).
Proof.
  destruct (Z.leb_spec 0 j) as [Hpos | Hneg]; cbn [andb].
  - destruct (Z.ltb_spec j 2) as [Hlt | Hge].
    + assert (Hj : j = 0 \/ j = 1) by lia. now destruct Hj; subst.
    + apply testbit_two_bits; [unfold gate_mask; lia | exact Hge].
  - now apply Z.testbit_neg_r.
Qed.

Lemma testbit_shl (v p i : Z) :
  0 <= p -> Z.testbit (U32.shl v p) i = (i <? 32) && Z.testbit v (i - p).
Proof.
  intros Hp. unfold U32.shl. rewrite testbit_wrap.
  destruct (Z.neg_nonneg_cases i) as [Hneg | Hpos].
  - rewrite !Z.testbit_neg_r by lia. reflexivity.
  - now rewrite Z.shiftl_spec.
Qed.

Lemma testbit_not (v i : Z) :
  0 <= i -> Z.testbit (U32.not v) i = (i <? 32) && negb (Z.testbit v i).
Proof.
  intros Hi. unfold U32.not. rewrite testbit_wrap.
  now rewrite Z.lnot_spec.
Qed.

(** The bits of the register value that the clock-gate enable stores. *)
Lemma testbit_gate_enabled_value (on r p i : Z) :
  0 <= p -> 0 <= i ->
  Z.testbit (gate_enabled_value on r p) i
  = (i <? 32)
    && ((Z.testbit r i && negb (Z.testbit gate_mask (i - p)))
        || Z.testbit on (i - p)).
Proof.
  intros Hp Hi. unfold gate_enabled_value, U32.or, U32.and.
  rewrite testbit_wrap, Z.lor_spec, Z.land_spec.
  rewrite testbit_not, !testbit_shl by assumption.
  destruct (i <? 32); reflexivity.
Qed.

Lemma clock_gate_enable_unfold (on ccgr cg : Z) (b : reg.Bus) :
  clock_gate_enable on ccgr cg b
  = let r := U32.wrap (reg.mem b ccgr) in
    let r' := gate_enabled_value on r cg in
    reg.mkBus (reg.poke (reg.mem b) ccgr r')
              (reg.trace b ++ [reg.Ld ccgr r; reg.St ccgr r']).
Proof.
  unfold clock_gate_enable, reg.SetN, reg.Read, reg.Write, gate_enabled_value.
  cbn [reg.mem reg.trace]. rewrite <- app_assoc. reflexivity.
Qed.

Lemma poke_same (m : Z -> Z) (a v : Z) : reg.poke m a v a = v.
Proof. unfold reg.poke. now rewrite Z.eqb_refl. Qed.

Lemma poke_other (m : Z -> Z) (a v a' : Z) :
  a' <> a -> reg.poke m a v a' = m a'.
Proof.
  intros Hne. unfold reg.poke.
  destruct (Z.eqb_spec a' a); [contradiction | reflexivity].
Qed.

(** The gate field holds the enabled encoding after the enable. *)
Lemma field_gate_enabled_value (on r p : Z) :
  0 <= on < 4 -> 0 <= p <= 30 ->
  reg.field (gate_enabled_value on r p) p gate_mask = on.
Proof.
  intros Hon Hp. unfold reg.field, U32.and, U32.shr.
  apply Z.bits_inj'. intros j Hj.
  rewrite Z.land_spec, Z.shiftr_spec by assumption.
  rewrite testbit_gate_enabled_value by lia.
  replace (j + p - p) with j by lia.
  rewrite (testbit_gate_mask j).
  destruct (Z.leb_spec 0 j); [| lia].
  destruct (Z.ltb_spec j 2) as [Hlt | Hge]; cbn [andb negb].
  - destruct (Z.ltb_spec (j + p) 32); [| lia].
    rewrite andb_false_r, andb_true_r. reflexivity.
  - rewrite andb_false_r. symmetry. now apply testbit_two_bits.
Qed.

(** Bits outside the gate field keep their value. *)
Lemma frame_gate_enabled_value (on r p i : Z) :
  0 <= on < 4 -> U32.in_range r -> 0 <= p ->
  i <> p -> i <> p + 1 ->
  Z.testbit (gate_enabled_value on r p) i = Z.testbit r i.
Proof.
  intros Hon Hr Hp Hi0 Hi1.
  destruct (Z.neg_nonneg_cases i) as [Hneg | Hpos].
  { now rewrite !Z.testbit_neg_r. }
  rewrite testbit_gate_enabled_value by assumption.
  rewrite testbit_gate_mask.
  assert (Hon' : Z.testbit on (i - p) = false).
  { destruct (Z.neg_nonneg_cases (i - p)).
    - now apply Z.testbit_neg_r.
    - apply testbit_two_bits; [assumption | lia]. }
  rewrite Hon', orb_false_r.
  assert (Hm : (0 <=? i - p) && (i - p <? 2) = false).
  { destruct (Z.leb_spec 0 (i - p)); [| reflexivity].
    destruct (Z.ltb_spec (i - p) 2); [lia | reflexivity]. }
  rewrite Hm. cbn [negb]. rewrite andb_true_r.
  destruct (Z.ltb_spec i 32); cbn [andb]; [reflexivity |].
  symmetry. now apply testbit_in_range_high.
Qed.

(** ** Clock-gate enable *)

(** C6.  For every 32-bit contents [r] of a clock-gate control register
    [ccgr] and every valid gate position [p] (0, 2, ..., 30), the clock-gate
    enable loads the register once and stores it once, the stored value has
    the enabled encoding in the 2-bit field at [p], and every bit outside
    [p, p+1], as every other register, is unchanged. *)
Theorem clock_gate_enable_frame (on ccgr p r : Z) (b : reg.Bus) :
  0 <= on < 4 ->
  valid_gate_position p ->
  U32.in_range r ->
  reg.mem b ccgr = r ->
  let b' := clock_gate_enable on ccgr p b in
  let r' := reg.mem b' ccgr in
  reg.trace b' = reg.trace b ++ [reg.Ld ccgr r; reg.St ccgr r']
  /\ U32.in_range r'
  /\ reg.field r' p gate_mask = on
  /\ (forall i, i <> p -> i <> p + 1 -> Z.testbit r' i = Z.testbit r i)
  /\ (forall a, a <> ccgr -> reg.mem b' a = reg.mem b a).
Proof.
  intros Hon [Hp _] Hr Hmem b' r'.
  subst b' r'. rewrite clock_gate_enable_unfold. cbn zeta.
  cbn [reg.mem reg.trace]. rewrite poke_same.
  rewrite Hmem, (wrap_small r Hr).
  split; [reflexivity |].
  split; [apply wrap_in_range |].
  split; [now apply field_gate_enabled_value |].
  split.
  - intros i Hi0 Hi1. apply frame_gate_enabled_value; auto; lia.
  - intros a Ha. now apply poke_other.
Qed.

Lemma clock_gate_enable_frame_witness :
  let b := flat_bus 0xA5A5A5A5 in
  let b' := clock_gate_enable 3 0x020c4070 12 b in
  reg.mem b' 0x020c4070 = 0xA5A5B5A5
  /\ reg.field (reg.mem b' 0x020c4070) 12 gate_mask = 3.
Proof.
  pose proof (clock_gate_enable_frame 3 0x020c4070 12 0xA5A5A5A5
                (flat_bus 0xA5A5A5A5)) as H.
  cbn zeta in H.
  destruct H as (_ & _ & Hfield & _).
  - lia.
  - split; [lia | reflexivity].
  - unfold U32.in_range, U32.modulus, U32.width. lia.
  - reflexivity.
  - split; [vm_compute; reflexivity | exact Hfield].
Defined.

(** ** Silicon version *)

Lemma land_0xff (v : Z) : Z.land v 0xff = v mod 2 ^ 8.
Proof. change 0xff with (Z.ones 8). apply Z.land_ones. lia. Qed.

(** A byte-wide field above bit 0 depends on the low bits only. *)
Lemma byte_field_low (v k : Z) :
  0 <= k ->
  Z.land (Z.shiftr v k) 0xff = Z.land (Z.shiftr (v mod 2 ^ (k + 8)) k) 0xff.
Proof.
  intros Hk. apply Z.bits_inj'. intros i Hi.
  rewrite !Z.land_spec, !Z.shiftr_spec by assumption.
  destruct (Z.ltb_spec i 8) as [Hlt | Hge].
  - rewrite Z.mod_pow2_bits_low by lia. reflexivity.
  - assert (H8 : Z.testbit 0xff i = false).
    { change 0xff with (Z.ones 8). apply Z.ones_spec_high. lia. }
    rewrite H8, !andb_false_r. reflexivity.
Qed.

Lemma mod_mod_pow2 (v a b : Z) :
  0 <= a <= b -> (v mod 2 ^ b) mod 2 ^ a = v mod 2 ^ a.
Proof.
  intros Hab. apply Z.bits_inj'. intros i Hi.
  destruct (Z.ltb_spec i a).
  - rewrite !Z.mod_pow2_bits_low by lia. reflexivity.
  - rewrite !(Z.mod_pow2_bits_high _ a) by lia. reflexivity.
Qed.

(** The three fields are functions of the low 24 bits. *)
Lemma fields_low24 (v : Z) :
  Z.land (Z.shiftr v 16) 0xff = Z.land (Z.shiftr (v mod 2 ^ 24) 16) 0xff
  /\ Z.land (Z.shiftr v 8) 0xff = Z.land (Z.shiftr (v mod 2 ^ 24) 8) 0xff
  /\ Z.land v 0xff = Z.land (v mod 2 ^ 24) 0xff.
Proof.
  split; [| split].
  - apply (byte_field_low v 16). lia.
  - rewrite (byte_field_low v 8), (byte_field_low (v mod 2 ^ 24) 8) by lia.
    change (8 + 8) with 16. rewrite mod_mod_pow2 by lia. reflexivity.
  - rewrite !land_0xff, mod_mod_pow2 by lia. reflexivity.
Qed.

Lemma SiliconVersion_unfold (b : reg.Bus) :
  SiliconVersion b
  = let sv := U32.wrap (reg.mem b USB_ANALOG_DIGPROG) in
    ((sv, Z.land (Z.shiftr sv 16) 0xff, Z.land (Z.shiftr sv 8) 0xff,
      Z.land sv 0xff),
     reg.mkBus (reg.mem b) (reg.trace b ++ [reg.Ld USB_ANALOG_DIGPROG sv])).
Proof. reflexivity. Qed.

(** C2.  For every 32-bit value [v] of the identification register,
    [SiliconVersion] returns [v] with family [(v >> 16) & 0xff], major
    revision [(v >> 8) & 0xff] and minor revision [v & 0xff]; the three
    fields ignore bits 24 to 31, so two register values that agree on their
    low 24 bits give the same fields, and a value whose low 24 bits are
    [0x630105] gives family [0x63], major [0x01], minor [0x05] whatever its
    top byte.  The call loads the register once and stores nothing. *)
Theorem SiliconVersion_fields (b : reg.Bus) (v : Z) :
  U32.in_range v ->
  reg.mem b USB_ANALOG_DIGPROG = v ->
  fst (SiliconVersion b)
  = (v, Z.land (Z.shiftr v 16) 0xff, Z.land (Z.shiftr v 8) 0xff,
     Z.land v 0xff)
  /\ fst (SiliconVersion b)
     = (v, (v / 2 ^ 16) mod 2 ^ 8, (v / 2 ^ 8) mod 2 ^ 8, v mod 2 ^ 8)
  /\ (forall (b' : reg.Bus) (v' : Z),
        U32.in_range v' ->
        reg.mem b' USB_ANALOG_DIGPROG = v' ->
        v' mod 2 ^ 24 = v mod 2 ^ 24 ->
        match fst (SiliconVersion b'), fst (SiliconVersion b) with
        | (_, family', revMajor', revMinor'), (_, family, revMajor, revMinor) =>
            family' = family /\ revMajor' = revMajor /\ revMinor' = revMinor
        end)
  /\ (v mod 2 ^ 24 = 0x630105 ->
      fst (SiliconVersion b) = (v, 0x63, 0x01, 0x05))
  /\ reg.mem (snd (SiliconVersion b)) = reg.mem b
  /\ reg.trace (snd (SiliconVersion b))
     = reg.trace b ++ [reg.Ld USB_ANALOG_DIGPROG v].
Proof.
  intros Hv Hmem.
  rewrite SiliconVersion_unfold. cbn zeta. cbn [fst snd reg.mem reg.trace].
  rewrite Hmem, (wrap_small v Hv).
  split; [reflexivity |].
  split.
  { rewrite !land_0xff, !Z.shiftr_div_pow2 by lia. reflexivity. }
  split.
  { intros b' v' Hv' Hmem' Hlow.
    rewrite SiliconVersion_unfold. cbn zeta. cbn [fst].
    rewrite Hmem', (wrap_small v' Hv').
    destruct (fields_low24 v) as (Hf & HM & Hm).
    destruct (fields_low24 v') as (Hf' & HM' & Hm').
    rewrite Hf, HM, Hm, Hf', HM', Hm', Hlow. auto. }
  split.
  { intros Hlow.
    destruct (fields_low24 v) as (Hf & HM & Hm).
    rewrite Hf, HM, Hm, Hlow. reflexivity. }
  split; reflexivity.
Qed.

Lemma SiliconVersion_fields_witness :
  fst (SiliconVersion (flat_bus 0xAB630105)) = (0xAB630105, 0x63, 0x01, 0x05)
  /\ fst (SiliconVersion (flat_bus 0x00630105)) = (0x00630105, 0x63, 0x01, 0x05).
Proof.
  split.
  - refine (proj1 (proj2 (proj2 (proj2
      (SiliconVersion_fields (flat_bus 0xAB630105) 0xAB630105 _ _)))) _);
      [unfold U32.in_range, U32.modulus, U32.width; lia
      | reflexivity | reflexivity].
  - refine (proj1 (proj2 (proj2 (proj2
      (SiliconVersion_fields (flat_bus 0x00630105) 0x00630105 _ _)))) _);
      [unfold U32.in_range, U32.modulus, U32.width; lia
      | reflexivity | reflexivity].
Defined.

(** ** Unique identifier *)

(** What a run of [UniqueID] does on any driver: one [Init], the reads of
    bank 0 words 1 and 2, and the two values stored little-endian. *)
Lemma UniqueID_unfold (K : ClockGates) (W : Type)
  (d : Driver OcotpCall W) (w : W) :
  let w1 := snd (d _ (OcotpInit (OCOTP K)) w) in
  let r0 := fst (d _ (OcotpRead (OCOTP K) 0 1) w1) in
  let w2 := snd (d _ (OcotpRead (OCOTP K) 0 1) w1) in
  let r1 := fst (d _ (OcotpRead (OCOTP K) 0 2) w2) in
  let w3 := snd (d _ (OcotpRead (OCOTP K) 0 2) w2) in
  run d (UniqueID K) w
  = (PutUint32 (PutUint32 (repeat 0 8) 0 (fst r0)) 4 (fst r1), w3)
  /\ history d (UniqueID K) w
     = [Ev w (OcotpInit (OCOTP K)) (fst (d _ (OcotpInit (OCOTP K)) w));
        Ev w1 (OcotpRead (OCOTP K) 0 1) r0;
        Ev w2 (OcotpRead (OCOTP K) 0 2) r1].
Proof.
  cbn zeta. unfold UniqueID, call. cbn [bind run history].
  destruct (d unit (OcotpInit (OCOTP K)) w) as [u w1]. cbn [fst snd].
  destruct (d _ (OcotpRead (OCOTP K) 0 1) w1) as [[cfg0 e0] w2].
  cbn [fst snd bind run history].
  destruct (d _ (OcotpRead (OCOTP K) 0 2) w2) as [[cfg1 e1] w3].
  cbn [fst snd bind run history].
  split; reflexivity.
Qed.

Lemma PutUint32_uid (a b : Z) :
  PutUint32 (PutUint32 (repeat 0 8) 0 a) 4 b
  = [byte a; byte (U32.shr a 8); byte (U32.shr a 16); byte (U32.shr a 24);
     byte b; byte (U32.shr b 8); byte (U32.shr b 16); byte (U32.shr b 24)].
Proof. reflexivity. Qed.

Lemma byte_shr (v k : Z) :
  0 <= k -> byte (U32.shr v k) = (v / 2 ^ k) mod 256.
Proof.
  intros Hk. unfold byte, U32.shr. now rewrite Z.shiftr_div_pow2.
Qed.

Lemma byte_is_byte (v : Z) : is_byte (byte v).
Proof. apply Z.mod_pos_bound. reflexivity. Qed.

(** The four bytes of a 32-bit word denote it. *)
Lemma le_value_word (v : Z) :
  U32.in_range v ->
  le_value [v mod 256; (v / 2 ^ 8) mod 256; (v / 2 ^ 16) mod 256;
            (v / 2 ^ 24) mod 256] = v.
Proof.
  unfold U32.in_range, U32.modulus, U32.width. intros Hv.
  cbn [le_value].
  change (2 ^ 8) with 256. change (2 ^ 16) with 65536.
  change (2 ^ 24) with 16777216. change (2 ^ 32) with 4294967296 in Hv.
  Z.div_mod_to_equations. lia.
Qed.

(** C3.  In every run whose reads of bank 0 word 1 and bank 0 word 2 return
    the 32-bit values [w1] and [w2], [UniqueID] returns the eight bytes of
    [w1] then [w2], least significant byte first: bytes 0 to 3 denote [w1],
    bytes 4 to 7 denote [w2]; for [0x12345678] and [0x9ABCDEF0] the result
    is [78 56 34 12 F0 DE BC 9A]. *)
Theorem UniqueID_little_endian (K : ClockGates) (W : Type)
  (d : Driver OcotpCall W) (w : W) (w1 w2 : Z) :
  U32.in_range w1 ->
  U32.in_range w2 ->
  fuse_reads (history d (UniqueID K) w) = [(0, 1, w1); (0, 2, w2)] ->
  let uid := fst (run d (UniqueID K) w) in
  uid = [w1 mod 256; (w1 / 2 ^ 8) mod 256;
         (w1 / 2 ^ 16) mod 256; (w1 / 2 ^ 24) mod 256;
         w2 mod 256; (w2 / 2 ^ 8) mod 256;
         (w2 / 2 ^ 16) mod 256; (w2 / 2 ^ 24) mod 256]
  /\ Forall is_byte uid
  /\ le_value (firstn 4 uid) = w1
  /\ le_value (skipn 4 uid) = w2
  /\ (w1 = 0x12345678 -> w2 = 0x9ABCDEF0 ->
      uid = [0x78; 0x56; 0x34; 0x12; 0xF0; 0xDE; 0xBC; 0x9A]).
Proof.
  intros Hw1 Hw2 Hreads uid. subst uid.
  destruct (UniqueID_unfold K W d w) as [Hrun Hhist]. cbn zeta in Hrun, Hhist.
  rewrite Hhist in Hreads. cbn [fuse_reads fuse_read] in Hreads.
  injection Hreads as H1 H2.
  rewrite Hrun. cbn [fst]. rewrite H1, H2, PutUint32_uid.
  rewrite !byte_shr by lia. unfold byte.
  assert (Hbytes : forall v, is_byte (v mod 256)).
  { intros v. apply Z.mod_pos_bound. reflexivity. }
  split; [reflexivity |].
  split; [repeat constructor; apply Hbytes |].
  cbn [firstn skipn].
  split; [now apply le_value_word |].
  split; [now apply le_value_word |].
  intros -> ->. reflexivity.
Qed.

Lemma UniqueID_little_endian_witness :
  fst (run fusebox_driver (UniqueID sample_gates) sample_fusebox)
  = [0x78; 0x56; 0x34; 0x12; 0xF0; 0xDE; 0xBC; 0x9A].
Proof.
  refine (proj2 (proj2 (proj2 (proj2
    (UniqueID_little_endian sample_gates FuseBox fusebox_driver
       sample_fusebox 0x12345678 0x9ABCDEF0 _ _ _)))) eq_refl eq_refl).
  - unfold U32.in_range, U32.modulus, U32.width. lia.
  - unfold U32.in_range, U32.modulus, U32.width. lia.
  - vm_compute. reflexivity.
Defined.

(** The reference driver fails both reads of a stuck device, and none of a
    blank one; [UniqueID] returns the zero identifier on both. *)
Lemma UniqueID_stuck_and_blank :
  read_failed
    (history fusebox_driver (UniqueID sample_gates) stuck_fusebox) = true
  /\ read_failed
       (history fusebox_driver (UniqueID sample_gates) blank_fusebox) = false
  /\ fst (run fusebox_driver (UniqueID sample_gates) stuck_fusebox)
     = [0; 0; 0; 0; 0; 0; 0; 0]
  /\ fst (run fusebox_driver (UniqueID sample_gates) blank_fusebox)
     = [0; 0; 0; 0; 0; 0; 0; 0].
Proof. repeat split; vm_compute; reflexivity. Qed.

(** C1, as stated, fails: no test on the identifier [UniqueID] returns
    tells a run with a failed fuse read from a run without.  A device stuck
    busy fails both reads and a blank device fails none, and both yield the
    zero identifier. *)
Lemma UniqueID_failure_not_surfaced : ~ surfaces_read_failure sample_gates.
Proof.
  intros [failed Hfailed].
  destruct UniqueID_stuck_and_blank as (Hs & Hb & Hrs & Hrb).
  pose proof (Hfailed FuseBox fusebox_driver stuck_fusebox) as H1.
  pose proof (Hfailed FuseBox fusebox_driver blank_fusebox) as H2.
  rewrite Hs, Hrs in H1. rewrite Hb, Hrb in H2.
  rewrite H1 in H2. discriminate H2.
Qed.

(** C1, amended.  [UniqueID] has no failure result: it discards the error
    of each fuse read and always returns eight bytes, built from the two
    values the reads returned whether or not they failed; a run whose reads
    fail returns the identifier of a run whose reads succeed with the same
    values. *)
Theorem UniqueID_discards_read_errors (K : ClockGates) (W : Type)
  (d : Driver OcotpCall W) (w : W) (v1 v2 : Z) (e1 e2 : option error) :
  read_results (history d (UniqueID K) w) = [(v1, e1); (v2, e2)] ->
  let uid := fst (run d (UniqueID K) w) in
  List.length uid = 8%nat
  /\ uid = PutUint32 (PutUint32 (repeat 0 8) 0 v1) 4 v2
  /\ (forall (W' : Type) (d' : Driver OcotpCall W') (w' : W')
        (e1' e2' : option error),
        read_results (history d' (UniqueID K) w') = [(v1, e1'); (v2, e2')] ->
        fst (run d' (UniqueID K) w') = uid).
Proof.
  intros Hres uid. subst uid.
  destruct (UniqueID_unfold K W d w) as [Hrun Hhist]. cbn zeta in Hrun, Hhist.
  rewrite Hhist in Hres. cbn [read_results event_result read_result] in Hres.
  injection Hres as H1 H2.
  rewrite Hrun. cbn [fst]. rewrite H1, H2. cbn [fst].
  split; [reflexivity |].
  split; [reflexivity |].
  intros W' d' w' e1' e2' Hres'.
  destruct (UniqueID_unfold K W' d' w') as [Hrun' Hhist'].
  cbn zeta in Hrun', Hhist'.
  rewrite Hhist' in Hres'.
  cbn [read_results event_result read_result] in Hres'.
  injection Hres' as H1' H2'.
  rewrite Hrun'. cbn [fst]. rewrite H1', H2'. reflexivity.
Qed.

Lemma UniqueID_discards_read_errors_witness :
  fst (run fusebox_driver (UniqueID sample_gates) blank_fusebox)
  = fst (run fusebox_driver (UniqueID sample_gates) stuck_fusebox).
Proof.
  refine (proj2 (proj2
    (UniqueID_discards_read_errors sample_gates FuseBox fusebox_driver
       stuck_fusebox 0 0 (Some "timeout"%string) (Some "timeout"%string) _))
    FuseBox fusebox_driver blank_fusebox None None _).
  - vm_compute. reflexivity.
  - vm_compute. reflexivity.
Defined.

(** C8.  On every call, from every world, [UniqueID] first calls [Init] on
    the fuse-box instance and only then reads bank 0 word 1 and bank 0
    word 2.  With a driver whose [Init] enables the fuse-box clock gate and
    whose reads leave it enabled, every read is made with the gate enabled,
    whatever the gate was before the call. *)
Theorem UniqueID_init_before_reads (K : ClockGates) (W : Type)
  (d : Driver OcotpCall W) (enabled : W -> bool) :
  (forall w, enabled (snd (d _ (OcotpInit (OCOTP K)) w)) = true) ->
  (forall bank word w,
      enabled w = true ->
      enabled (snd (d _ (OcotpRead (OCOTP K) bank word) w)) = true) ->
  forall w : W,
    map ocotp_label (history d (UniqueID K) w)
    = [LInit (OCOTP K); LRead (OCOTP K) 0 1; LRead (OCOTP K) 0 2]
    /\ Forall (fun ev => is_read ev = true -> enabled (world_of ev) = true)
              (history d (UniqueID K) w)
    /\ enabled (snd (run d (UniqueID K) w)) = true.
Proof.
  intros Hinit Hread w.
  destruct (UniqueID_unfold K W d w) as [Hrun Hhist]. cbn zeta in Hrun, Hhist.
  rewrite Hhist, Hrun. cbn [map ocotp_label snd].
  pose proof (Hinit w) as H1.
  pose proof (Hread 0 1 _ H1) as H2.
  pose proof (Hread 0 2 _ H2) as H3.
  split; [reflexivity |].
  split; [| exact H3].
  constructor; [cbn [is_read]; discriminate |].
  constructor; [intros _; exact H1 |].
  constructor; [intros _; exact H2 | constructor].
Qed.

Lemma UniqueID_init_before_reads_witness :
  map ocotp_label
    (history fusebox_driver (UniqueID sample_gates) blank_fusebox)
  = [LInit (OCOTP sample_gates);
     LRead (OCOTP sample_gates) 0 1;
     LRead (OCOTP sample_gates) 0 2]
  /\ bus_fault
       (snd (run fusebox_driver (UniqueID sample_gates) blank_fusebox))
     = false.
Proof.
  split.
  - refine (proj1 (UniqueID_init_before_reads sample_gates FuseBox
                     fusebox_driver gate_on _ _ blank_fusebox)).
    + intros w. reflexivity.
    + intros bank word w Hw. cbn. rewrite Hw. cbn.
      destruct (busy w); assumption.
  - vm_compute. reflexivity.
Defined.

(** ** Model name *)

(** C4.  [Model] is a function of the family value with three outcomes and
    no failure: the UL name for the UL code, the ULL name for the ULL code
    (the two codes of a [switch] are distinct constants), and the sentinel
    for every other value. *)
Theorem Model_cases (IMX6UL IMX6ULL : Z) :
  IMX6UL <> IMX6ULL ->
  Model IMX6UL IMX6ULL IMX6UL = "i.MX6UL"%string
  /\ Model IMX6UL IMX6ULL IMX6ULL = "i.MX6ULL"%string
  /\ (forall Family : Z,
        Family <> IMX6UL -> Family <> IMX6ULL ->
        Model IMX6UL IMX6ULL Family = "unknown"%string)
  /\ (forall Family : Z,
        In (Model IMX6UL IMX6ULL Family)
           ["i.MX6UL"; "i.MX6ULL"; "unknown"]%string).
Proof.
  intros Hne. unfold Model.
  split; [now rewrite Z.eqb_refl |].
  split.
  { destruct (Z.eqb_spec IMX6ULL IMX6UL) as [Heq | _].
    - symmetry in Heq. contradiction.
    - now rewrite Z.eqb_refl. }
  split.
  - intros Family H1 H2.
    destruct (Z.eqb_spec Family IMX6UL); [contradiction |].
    destruct (Z.eqb_spec Family IMX6ULL); [contradiction | reflexivity].
  - intros Family.
    destruct (Family =? IMX6UL); [left; reflexivity |].
    destruct (Family =? IMX6ULL); [right; left | right; right; left];
      reflexivity.
Qed.

Lemma Model_cases_witness :
  Model 0x64 0x65 0x64 = "i.MX6UL"%string
  /\ Model 0x64 0x65 0x65 = "i.MX6ULL"%string
  /\ Model 0x64 0x65 0x63 = "unknown"%string.
Proof.
  assert (Hne : 0x64 <> 0x65) by lia.
  destruct (Model_cases 0x64 0x65 Hne) as (Hul & Hull & Hother & _).
  split; [exact Hul |].
  split; [exact Hull |].
  apply Hother; lia.
Defined.

(** ** Secure boot state *)

(** C5.  [HAB] makes exactly one [Available] call on the secure-storage
    instance each time it runs and returns its answer, with no effect of its
    own.  With a driver that answers with the availability flag and leaves
    the flag alone, [HAB] returns the flag of the world it runs in: a second
    call after the flag is toggled returns the other value, a further call
    without a toggle returns the same value, and where the driver's read
    leaves the world unchanged so does [HAB]. *)
Theorem HAB_mirrors_flag (W : Type) (d : Driver SnvsCall W)
  (flag : W -> bool) (toggle : W -> W) :
  (forall w, fst (d _ (SnvsAvailable SNVS) w) = flag w) ->
  (forall w, flag (snd (d _ (SnvsAvailable SNVS) w)) = flag w) ->
  (forall w, flag (toggle w) = negb (flag w)) ->
  forall w : W,
    run d HAB w = d _ (SnvsAvailable SNVS) w
    /\ map snvs_label (history d HAB w) = [SNVS]
    /\ map world_of (history d HAB w) = [w]
    /\ fst (run d HAB w) = flag w
    /\ (let (r1, w1) := run d HAB w in
        let (r2, w2) := run d HAB (toggle w1) in
        let (r3, _) := run d HAB w2 in
        r1 = flag w /\ r2 = negb r1 /\ r3 = r2)
    /\ ((forall w', snd (d _ (SnvsAvailable SNVS) w') = w') ->
        snd (run d HAB w) = w).
Proof.
  intros Hread Hkeep Htoggle w.
  assert (Hrun : forall x, run d HAB x = d _ (SnvsAvailable SNVS) x).
  { intros x. unfold HAB, call. cbn [run].
    destruct (d bool (SnvsAvailable SNVS) x). reflexivity. }
  assert (Hhist : forall x,
             history d HAB x
             = [Ev x (SnvsAvailable SNVS) (fst (d _ (SnvsAvailable SNVS) x))]).
  { intros x. unfold HAB, call. cbn [history].
    destruct (d bool (SnvsAvailable SNVS) x). reflexivity. }
  split; [apply Hrun |].
  rewrite Hhist. cbn [map snvs_label world_of].
  split; [reflexivity |].
  split; [reflexivity |].
  rewrite Hrun.
  split; [apply Hread |].
  split.
  - pose proof (Hread w) as Ha. pose proof (Hkeep w) as Hb.
    destruct (d bool (SnvsAvailable SNVS) w) as [r1 w1]. cbn [fst snd] in Ha, Hb.
    rewrite Hrun.
    pose proof (Hread (toggle w1)) as Hc. pose proof (Hkeep (toggle w1)) as Hd.
    destruct (d bool (SnvsAvailable SNVS) (toggle w1)) as [r2 w2].
    cbn [fst snd] in Hc, Hd.
    rewrite Hrun.
    pose proof (Hread w2) as He.
    destruct (d bool (SnvsAvailable SNVS) w2) as [r3 w3]. cbn [fst] in He.
    split; [exact Ha |].
    split.
    + rewrite Hc, Htoggle, Hb, Ha. reflexivity.
    + rewrite He, Hd, Hc. reflexivity.
  - intros Hpure. apply Hpure.
Qed.

Lemma HAB_mirrors_flag_witness :
  run snvs_driver HAB (mkSecureStorage false) = (false, mkSecureStorage false)
  /\ run snvs_driver HAB (toggle_available (mkSecureStorage false))
     = (true, mkSecureStorage true).
Proof.
  assert (H : forall w,
             run snvs_driver HAB w
             = snvs_driver _ (SnvsAvailable SNVS) w).
  { intros w.
    refine (proj1 (HAB_mirrors_flag SecureStorage snvs_driver available
                     toggle_available _ _ _ w)).
    - intros x. reflexivity.
    - intros x. reflexivity.
    - intros x. reflexivity. }
  split; rewrite H; reflexivity.
Defined.

(** ** Bring-up *)

(** A literal whose fields run no code evaluates to its values and leaves
    the machine as it was. *)
Lemma eval_fields_values (env : Env) (fs : list (string * FieldInit))
  (m : Machine) :
  forallb (fun nf => is_value (snd nf)) fs = true ->
  eval_fields env fs m = (value_of_fields fs, m).
Proof.
  induction fs as [| [n f] fs IH]; intros H; [reflexivity |].
  cbn [forallb snd] in H. apply andb_prop in H. destruct H as [Hf Hfs].
  cbn [eval_fields value_of_fields].
  destruct f as [v | h | fn args]; cbn [is_value] in Hf;
    try discriminate Hf; cbn [eval_field]; rewrite (IH Hfs); reflexivity.
Qed.

(** A block without calls binds the descriptors it denotes and touches
    neither the bus nor the record of calls. *)
Lemma eval_block_calls_nothing (env : Env) (blk : list (string * Literal))
  (m : Machine) :
  calls_nothing blk = true ->
  eval_block env blk m
  = ps <-? build_all blk ;;
    Some (mkMachine (globals m ++ ps) (bus m) (called m)).
Proof.
  revert m. induction blk as [| [n l] rest IH]; intros m H.
  - cbn [eval_block build_all opt_bind]. rewrite app_nil_r.
    now destruct m.
  - unfold calls_nothing in H. cbn [forallb snd] in H.
    apply andb_prop in H. destruct H as [Hl Hrest].
    cbn [eval_block build_all]. unfold declare.
    rewrite (eval_fields_values env _ m Hl).
    destruct (build (lit_type l) (value_of_fields (lit_fields l))) as [p |];
      cbn [opt_bind]; [| reflexivity].
    rewrite (IH _ Hrest). cbn [globals bus called].
    destruct (build_all rest) as [ps |]; cbn [opt_bind]; [| reflexivity].
    rewrite <- app_assoc. reflexivity.
Qed.

Lemma var_block_calls_nothing (K : ClockGates) :
  calls_nothing (var_block K) = true.
Proof. reflexivity. Qed.

Lemma var_block_instances (K : ClockGates) :
  build_all (var_block K) = Some (instances K).
Proof. reflexivity. Qed.

(** A call in an initialiser does reach the bus: with a function that
    enables a clock gate, a block that calls it comes out of bring-up with
    the gate enabled, one load and one store made, and the call on
    record. *)
Lemma eager_block_powers_on :
  match eval_block (enabling_env 3) (eager_block sample_gates)
          (mkMachine [] (reg.mkBus (fun _ => 0) []) []) with
  | Some m' =>
      called m' = ["enable"%string]
      /\ reg.trace (bus m') = [reg.Ld 0x020c4070 0; reg.St 0x020c4070 0x3000]
      /\ powered 3 (bus m') (POcotp (OCOTP sample_gates)) = true
  | None => False
  end.
Proof. vm_compute. repeat split; reflexivity. Qed.

Lemma powered_after_driver_Init (on ccgr cg : Z) (p : Peripheral)
  (b : reg.Bus) :
  gate_of p = Some (ccgr, cg) ->
  0 <= on < 4 -> 0 <= cg <= 30 ->
  powered on (driver_Init on p b) p = true.
Proof.
  intros Hg Hon Hcg. unfold powered, driver_Init. rewrite Hg.
  rewrite clock_gate_enable_unfold. cbn zeta. cbn [reg.mem].
  rewrite poke_same, field_gate_enabled_value by assumption.
  apply Z.eqb_refl.
Qed.

(** C7.  Whatever the functions of the program do when called, evaluating
    the package's variable block calls none of them and leaves the
    peripheral bus as it was, so no register is loaded or stored and none
    changes; it binds the twenty instances.  An instance whose clock gate is
    off before bring-up is therefore still off after it, stays off across
    [SiliconVersion], and is on once the [Init] of its driver has run: the
    explicit later call is what activates it. *)
Theorem package_vars_no_hardware_access (K : ClockGates) (env : Env)
  (m : Machine) :
  exists m' : Machine,
    package_vars env K m = Some m'
    /\ bus m' = bus m
    /\ called m' = called m
    /\ globals m' = globals m ++ instances K
    /\ (forall on n p ccgr cg,
          In (n, p) (instances K) ->
          gate_of p = Some (ccgr, cg) ->
          0 <= on < 4 -> 0 <= cg <= 30 ->
          powered on (bus m) p = false ->
          powered on (bus m') p = false
          /\ powered on (snd (SiliconVersion (bus m'))) p = false
          /\ powered on (driver_Init on p (bus m')) p = true).
Proof.
  unfold package_vars.
  rewrite (eval_block_calls_nothing env _ m (var_block_calls_nothing K)).
  rewrite var_block_instances. cbn [opt_bind].
  eexists. split; [reflexivity |]. cbn [bus called globals].
  repeat (split; [reflexivity |]).
  intros on n p ccgr cg _ Hg Hon Hcg Hoff.
  split; [exact Hoff |].
  split; [exact Hoff |].
  now apply (powered_after_driver_Init on ccgr cg).
Qed.

Lemma package_vars_no_hardware_access_witness :
  exists m' : Machine,
    package_vars (enabling_env 3) sample_gates
      (mkMachine [] (flat_bus 0) []) = Some m'
    /\ reg.trace (bus m') = []
    /\ called m' = []
    /\ lookup "OCOTP" (globals m') = Some (POcotp (OCOTP sample_gates))
    /\ powered 3 (bus m') (POcotp (OCOTP sample_gates)) = false
    /\ powered 3 (driver_Init 3 (POcotp (OCOTP sample_gates)) (bus m'))
         (POcotp (OCOTP sample_gates)) = true.
Proof.
  destruct (package_vars_no_hardware_access sample_gates (enabling_env 3)
              (mkMachine [] (flat_bus 0) []))
    as (m' & Hrun & Hbus & Hcalled & Hg & Hgate).
  exists m'.
  split; [exact Hrun |].
  split; [rewrite Hbus; reflexivity |].
  split; [exact Hcalled |].
  split; [rewrite Hg; reflexivity |].
  destruct (Hgate 3 "OCOTP"%string (POcotp (OCOTP sample_gates))
              0x020c4070 12) as (Hoff & _ & Hon).
  - cbn. tauto.
  - reflexivity.
  - lia.
  - lia.
  - reflexivity.
  - split; [exact Hoff | exact Hon].
Defined.

(** ** Address map *)

Lemma bases_value (K : ClockGates) :
  bases K
  = [CSU_BASE; DCP_BASE; GPIO1_BASE; GPIO2_BASE; GPIO3_BASE; GPIO4_BASE;
     GPIO5_BASE; I2C1_BASE; I2C2_BASE; OCOTP_BASE; RNGB_BASE; SNVS_BASE;
     TZASC_BASE; UART1_BASE; UART2_BASE; USB1_BASE; USB2_BASE; USDHC1_BASE;
     USDHC2_BASE].
Proof. reflexivity. Qed.

Lemma blocks_value (K : ClockGates) :
  blocks K
  = [CSU_BASE; DCP_BASE; GPIO1_BASE; GPIO2_BASE; GPIO3_BASE; GPIO4_BASE;
     GPIO5_BASE; I2C1_BASE; I2C2_BASE; OCOTP_BASE; OCOTP_BANK_BASE;
     RNGB_BASE; SNVS_BASE; TZASC_BASE; UART1_BASE; UART2_BASE;
     USB1_BASE; USB_ANALOG1_BASE; USBPHY1_BASE;
     USB2_BASE; USB_ANALOG2_BASE; USBPHY2_BASE;
     USDHC1_BASE; USDHC2_BASE].
Proof. reflexivity. Qed.

(** A list of integers without repetition, checked by computation. *)
Lemma NoDup_Z_check (l : list Z) :
  (fix distinct (l : list Z) : bool :=
     match l with
     | [] => true
     | x :: t => negb (existsb (Z.eqb x) t) && distinct t
     end) l = true ->
  NoDup l.
Proof.
  induction l as [| x t IH]; intros H; constructor.
  - apply andb_prop in H. destruct H as [Hx _].
    intros Hin. apply negb_true_iff in Hx.
    assert (Hex : existsb (Z.eqb x) t = true).
    { apply existsb_exists. exists x. split; [exact Hin | apply Z.eqb_refl]. }
    congruence.
  - apply andb_prop in H. destruct H as [_ Ht]. now apply IH.
Qed.

(** Two bases of the map are equal or at least [0x200] apart. *)
Lemma bases_gap_check (l : list Z) (gap : Z) :
  forallb (fun a => forallb (fun b => (a =? b) || (gap <=? Z.abs (a - b))) l) l
  = true ->
  forall a b, In a l -> In b l -> a <> b -> gap <= Z.abs (a - b).
Proof.
  intros H a b Ha Hb Hne.
  rewrite forallb_forall in H. specialize (H a Ha).
  rewrite forallb_forall in H. specialize (H b Hb).
  apply orb_prop in H. destruct H as [H | H].
  - apply Z.eqb_eq in H. contradiction.
  - now apply Z.leb_le.
Qed.

Lemma In_instances_base (n : string) (p : Peripheral)
  (a : Z) (l : list (string * Peripheral)) :
  In (n, p) l -> base_of p = Some a ->
  In a (somes (map (fun np => base_of (snd np)) l)).
Proof.
  induction l as [| [n' p'] l IH]; intros Hin Hbase; [contradiction |].
  cbn [map snd somes]. destruct Hin as [Heq | Hin].
  - injection Heq as -> ->. rewrite Hbase. now left.
  - destruct (base_of p'); [right |]; now apply IH.
Qed.

(** An address that is the base of two entries of a list with distinct
    bases names one entry. *)
Lemma distinct_bases_one_owner (l : list (string * Peripheral)) :
  NoDup (somes (map (fun np => base_of (snd np)) l)) ->
  forall n1 p1 n2 p2 a,
    In (n1, p1) l -> In (n2, p2) l ->
    base_of p1 = Some a -> base_of p2 = Some a ->
    (n1, p1) = (n2, p2).
Proof.
  induction l as [| [n p] l IH]; intros Hnd n1 p1 n2 p2 a H1 H2 Hb1 Hb2;
    [contradiction |].
  cbn [map snd somes] in Hnd.
  assert (Htail : forall n' p', In (n', p') l -> base_of p' = Some a ->
                    In a (somes (map (fun np => base_of (snd np)) l))).
  { intros n' p' Hin Hb. eapply In_instances_base; eassumption. }
  destruct H1 as [E1 | H1], H2 as [E2 | H2].
  - congruence.
  - injection E1 as -> ->. rewrite Hb1 in Hnd.
    apply NoDup_cons_iff in Hnd. destruct Hnd as [Hnot _].
    exfalso. apply Hnot. eapply Htail; eassumption.
  - injection E2 as -> ->. rewrite Hb2 in Hnd.
    apply NoDup_cons_iff in Hnd. destruct Hnd as [Hnot _].
    exfalso. apply Hnot. eapply Htail; eassumption.
  - assert (Hnd' : NoDup (somes (map (fun np => base_of (snd np)) l))).
    { destruct (base_of p); [| exact Hnd].
      now apply NoDup_cons_iff in Hnd. }
    now apply (IH Hnd' n1 p1 n2 p2 a).
Qed.

(** C9.  The base addresses of the peripheral instances are pairwise
    distinct: two entries of the registry with the same base address are the
    same entry, so instances under different names have different bases.
    No two bases are closer than [0x200], so register windows of up to
    [0x200] bytes at the bases do not overlap.  Every block address bound
    into an instance (base, fuse bank, USB analog, USB PHY) is distinct
    from every other. *)
Theorem base_addresses_distinct (K : ClockGates) :
  NoDup (bases K)
  /\ NoDup (blocks K)
  /\ (forall n1 p1 n2 p2 a1 a2,
        In (n1, p1) (instances K) -> In (n2, p2) (instances K) ->
        base_of p1 = Some a1 -> base_of p2 = Some a2 ->
        n1 <> n2 -> a1 <> a2)
  /\ (forall a b, In a (bases K) -> In b (bases K) -> a <> b ->
        0x200 <= Z.abs (a - b))
  /\ NoDup (map fst (instances K)).
Proof.
  assert (Hbases : NoDup (bases K)).
  { rewrite bases_value. apply NoDup_Z_check. vm_compute. reflexivity. }
  split; [exact Hbases |].
  split.
  { rewrite blocks_value. apply NoDup_Z_check. vm_compute. reflexivity. }
  split.
  { intros n1 p1 n2 p2 a1 a2 H1 H2 Hb1 Hb2 Hn Ha. subst a2.
    apply Hn.
    assert (E : (n1, p1) = (n2, p2)).
    { apply (distinct_bases_one_owner (instances K) Hbases n1 p1 n2 p2 a1);
        assumption. }
    congruence. }
  split.
  { rewrite bases_value. apply bases_gap_check. vm_compute. reflexivity. }
  cbn [instances map fst].
  repeat (constructor;
          [cbn [In]; intros H;
           repeat (destruct H as [H | H]; [discriminate H |]); exact H |]).
  constructor.
Qed.

Lemma base_addresses_distinct_witness :
  usb.Base (USB1 sample_gates) <> usb.Base (USB2 sample_gates)
  /\ 0x200 <= Z.abs (USB1_BASE - USB2_BASE).
Proof.
  destruct (base_addresses_distinct sample_gates) as (_ & _ & Hpair & Hgap & _).
  split.
  - apply (Hpair "USB1"%string (PUsb (USB1 sample_gates))
                 "USB2"%string (PUsb (USB2 sample_gates))).
    + cbn. tauto.
    + cbn. tauto.
    + reflexivity.
    + reflexivity.
    + discriminate.
  - apply Hgap.
    + rewrite bases_value. cbn. tauto.
    + rewrite bases_value. cbn. tauto.
    + discriminate.
Defined.

(** ** USB clock gate *)

(** C10.  The two USB controllers name the same clock gate, control
    register [CCM_CCGR6] and field [CCGRx_CG0]: their (CCGR, CG) pairs are
    equal, the clock-gate enable of one is the clock-gate enable of the
    other, and after the enable of either the gate field of both holds the
    enabled encoding. *)
Theorem USB_shared_clock_gate (K : ClockGates) (on : Z) (b : reg.Bus) :
  0 <= on < 4 ->
  valid_gate_position (CCGRx_CG0 K) ->
  (usb.CCGR (USB1 K), usb.CG (USB1 K)) = (CCM_CCGR6 K, CCGRx_CG0 K)
  /\ (usb.CCGR (USB2 K), usb.CG (USB2 K)) = (CCM_CCGR6 K, CCGRx_CG0 K)
  /\ gate_of (PUsb (USB1 K)) = gate_of (PUsb (USB2 K))
  /\ clock_gate_enable on (usb.CCGR (USB1 K)) (usb.CG (USB1 K)) b
     = clock_gate_enable on (usb.CCGR (USB2 K)) (usb.CG (USB2 K)) b
  /\ (let b1 := clock_gate_enable on (usb.CCGR (USB1 K)) (usb.CG (USB1 K)) b in
      reg.field (reg.mem b1 (usb.CCGR (USB2 K))) (usb.CG (USB2 K)) gate_mask
      = on)
  /\ (let b2 := clock_gate_enable on (usb.CCGR (USB2 K)) (usb.CG (USB2 K)) b in
      reg.field (reg.mem b2 (usb.CCGR (USB1 K))) (usb.CG (USB1 K)) gate_mask
      = on).
Proof.
  intros Hon [Hp _]. cbn [USB1 USB2 usb.CCGR usb.CG gate_of].
  repeat (split; [reflexivity |]).
  assert (H : reg.field
                (reg.mem (clock_gate_enable on (CCM_CCGR6 K) (CCGRx_CG0 K) b)
                         (CCM_CCGR6 K))
                (CCGRx_CG0 K) gate_mask = on).
  { rewrite clock_gate_enable_unfold. cbn zeta. cbn [reg.mem].
    rewrite poke_same. now apply field_gate_enabled_value. }
  split; exact H.
Qed.

Lemma USB_shared_clock_gate_witness :
  gate_of (PUsb (USB1 sample_gates)) = Some (0x020c4080, 0)
  /\ gate_of (PUsb (USB2 sample_gates)) = Some (0x020c4080, 0)
  /\ reg.field
       (reg.mem (clock_gate_enable 3 0x020c4080 0 (flat_bus 0)) 0x020c4080)
       0 gate_mask = 3.
Proof.
  assert (Hon : 0 <= 3 < 4) by lia.
  assert (Hp : valid_gate_position (CCGRx_CG0 sample_gates)).
  { split; [cbn; lia | reflexivity]. }
  destruct (USB_shared_clock_gate sample_gates 3 (flat_bus 0) Hon Hp)
    as (_ & _ & Hsame & _ & H12 & _).
  split; [reflexivity |].
  split; [rewrite <- Hsame; reflexivity |].
  exact H12.
Defined.

(** * Further properties of the package *)

(** ** Silicon version: the fields recompose *)

(** X1.  On every bus, the value [SiliconVersion] returns is a [uint32], its
    three fields are bytes, and they recompose: the low 24 bits of the value
    are [family * 2^16 + revMajor * 2^8 + revMinor], and the value is that
    plus its reserved top byte times [2^24]. *)
Theorem SiliconVersion_recompose (b : reg.Bus) :
  match fst (SiliconVersion b) with
  | (sv, family, revMajor, revMinor) =>
      U32.in_range sv
      /\ is_byte family /\ is_byte revMajor /\ is_byte revMinor
      /\ sv mod 2 ^ 24 = family * 2 ^ 16 + revMajor * 2 ^ 8 + revMinor
      /\ sv = (sv / 2 ^ 24) * 2 ^ 24
              + family * 2 ^ 16 + revMajor * 2 ^ 8 + revMinor
      /\ 0 <= sv / 2 ^ 24 < 256
  end.
Proof.
  rewrite SiliconVersion_unfold. cbn zeta. cbn [fst].
  pose proof (wrap_in_range (reg.mem b USB_ANALOG_DIGPROG)) as Hsv.
  set (sv := U32.wrap (reg.mem b USB_ANALOG_DIGPROG)) in *.
  rewrite !land_0xff, !Z.shiftr_div_pow2 by lia.
  unfold U32.in_range, U32.modulus, U32.width, is_byte in *.
  change (2 ^ 8) with 256. change (2 ^ 16) with 65536.
  change (2 ^ 24) with 16777216. change (2 ^ 32) with 4294967296 in *.
  repeat split; try (Z.div_mod_to_equations; lia).
Qed.

(** ** Model name: the name identifies the family *)

(** X3.  With distinct family codes, the name [Model] returns tells the
    family back: it is the UL name exactly for the UL code, the ULL name
    exactly for the ULL code, and the sentinel exactly for every other
    value. *)
Theorem Model_identifies_family (IMX6UL IMX6ULL Family : Z) :
  IMX6UL <> IMX6ULL ->
  (Model IMX6UL IMX6ULL Family = "i.MX6UL"%string <-> Family = IMX6UL)
  /\ (Model IMX6UL IMX6ULL Family = "i.MX6ULL"%string <-> Family = IMX6ULL)
  /\ (Model IMX6UL IMX6ULL Family = "unknown"%string
      <-> Family <> IMX6UL /\ Family <> IMX6ULL).
Proof.
  intros Hne. unfold Model.
  destruct (Z.eqb_spec Family IMX6UL) as [E1 | N1];
    [| destruct (Z.eqb_spec Family IMX6ULL) as [E2 | N2]].
  - split; [split; intros; [assumption | reflexivity] |].
    split; split.
    + intros Hd. discriminate Hd.
    + intros E2. congruence.
    + intros Hd. discriminate Hd.
    + intros [N1 _]. contradiction.
  - split; [split; [intros Hd; discriminate Hd | intros E1; contradiction] |].
    split; split.
    + intros _. assumption.
    + intros _. reflexivity.
    + intros Hd. discriminate Hd.
    + intros [_ N2]. contradiction.
  - split; [split; [intros Hd; discriminate Hd | intros E1; contradiction] |].
    split; split.
    + intros Hd. discriminate Hd.
    + intros E2. contradiction.
    + intros _. split; assumption.
    + intros _. reflexivity.
Qed.

Lemma Model_identifies_family_witness :
  (Model 0x64 0x65 0x65 = "i.MX6ULL"%string <-> 0x65 = 0x65)
  /\ (Model 0x64 0x65 0 = "unknown"%string <-> 0 <> 0x64 /\ 0 <> 0x65).
Proof.
  assert (Hne : 0x64 <> 0x65) by lia.
  split.
  - exact (proj1 (proj2 (Model_identifies_family 0x64 0x65 0x65 Hne))).
  - exact (proj2 (proj2 (Model_identifies_family 0x64 0x65 0 Hne))).
Defined.

(** ** Little-endian stores *)

Lemma store_length (b : list Z) (i : nat) (x : Z) :
  List.length (store b i x) = List.length b.
Proof.
  revert i. induction b as [| h t IH]; intros [| i]; cbn [store List.length];
    auto.
Qed.

Lemma store_cons_S (h : Z) (t : list Z) (i : nat) (x : Z) :
  store (h :: t) (S i) x = h :: store t i x.
Proof. reflexivity. Qed.

Lemma PutUint32_cons_S (h : Z) (t : list Z) (lo : nat) (v : Z) :
  PutUint32 (h :: t) (S lo) v = h :: PutUint32 t lo v.
Proof.
  unfold PutUint32. cbn [Nat.add]. rewrite !store_cons_S. reflexivity.
Qed.

(** A store of a word in range replaces the four bytes of its slice. *)
Lemma PutUint32_splice (b : list Z) (lo : nat) (v : Z) :
  (lo + 4 <= List.length b)%nat ->
  PutUint32 b lo v
  = firstn lo b
    ++ [byte v; byte (U32.shr v 8); byte (U32.shr v 16); byte (U32.shr v 24)]
    ++ skipn (lo + 4) b.
Proof.
  revert b. induction lo as [| lo IH]; intros b Hlen.
  - destruct b as [| a0 [| a1 [| a2 [| a3 t]]]];
      cbn [List.length Nat.add] in Hlen; try lia.
    reflexivity.
  - destruct b as [| h t]; cbn [List.length Nat.add] in Hlen; [lia |].
    rewrite PutUint32_cons_S, IH by lia. reflexivity.
Qed.

Lemma le_value_bytes_of_word (v : Z) :
  U32.in_range v ->
  le_value
    [byte v; byte (U32.shr v 8); byte (U32.shr v 16); byte (U32.shr v 24)]
  = v.
Proof.
  intros Hv. rewrite !byte_shr by lia. unfold byte.
  now apply le_value_word.
Qed.

(** X4.  A little-endian store of [v] into the four-byte slice at [lo] of a
    buffer long enough keeps the length of the buffer, leaves every byte
    outside the slice as it was, and fills the slice with bytes that denote
    [v]; a second store into the same slice replaces the first. *)
Theorem PutUint32_frame (b : list Z) (lo : nat) (v : Z) :
  (lo + 4 <= List.length b)%nat ->
  List.length (PutUint32 b lo v) = List.length b
  /\ firstn lo (PutUint32 b lo v) = firstn lo b
  /\ skipn (lo + 4) (PutUint32 b lo v) = skipn (lo + 4) b
  /\ Forall is_byte (firstn 4 (skipn lo (PutUint32 b lo v)))
  /\ (U32.in_range v ->
      le_value (firstn 4 (skipn lo (PutUint32 b lo v))) = v)
  /\ (forall v', PutUint32 (PutUint32 b lo v) lo v' = PutUint32 b lo v').
Proof.
  intros Hlen.
  assert (Hfl : List.length (firstn lo b) = lo).
  { apply firstn_length_le. lia. }
  assert (Hlen' : List.length (PutUint32 b lo v) = List.length b).
  { unfold PutUint32. now rewrite !store_length. }
  split; [exact Hlen' |].
  rewrite (PutUint32_splice b lo v Hlen).
  set (bytes := [byte v; byte (U32.shr v 8); byte (U32.shr v 16);
                 byte (U32.shr v 24)]).
  assert (Hfirst : firstn lo (firstn lo b ++ bytes ++ skipn (lo + 4) b)
                   = firstn lo b).
  { rewrite firstn_app, Hfl, Nat.sub_diag, firstn_O, app_nil_r.
    rewrite firstn_all2 by lia. reflexivity. }
  assert (Hskip : skipn lo (firstn lo b ++ bytes ++ skipn (lo + 4) b)
                  = bytes ++ skipn (lo + 4) b).
  { rewrite skipn_app, Hfl, Nat.sub_diag.
    rewrite skipn_all2 by lia. reflexivity. }
  assert (Hskip4 : forall l : list Z, skipn (lo + 4) l = skipn 4 (skipn lo l)).
  { intros l. rewrite skipn_skipn. f_equal. lia. }
  split; [exact Hfirst |].
  split.
  { rewrite (Hskip4 (firstn lo b ++ bytes ++ skipn (lo + 4) b)), Hskip.
    reflexivity. }
  rewrite Hskip. cbn [bytes app firstn].
  split; [repeat constructor; apply byte_is_byte |].
  split; [apply le_value_bytes_of_word |].
  intros v'.
  set (b' := firstn lo b ++ bytes ++ skipn (lo + 4) b) in *.
  assert (Hb' : (lo + 4 <= List.length b')%nat).
  { unfold b'. rewrite !length_app, Hfl, length_skipn. cbn. lia. }
  change (PutUint32 b' lo v' = PutUint32 b lo v').
  rewrite (PutUint32_splice b' lo v' Hb'), (PutUint32_splice b lo v' Hlen).
  rewrite Hfirst, (Hskip4 b'), Hskip. reflexivity.
Qed.

Lemma PutUint32_frame_witness :
  PutUint32 (PutUint32 [1; 2; 3; 4; 5; 6; 7; 8] 4 0xCAFEF00D) 4 0x01020304
  = PutUint32 [1; 2; 3; 4; 5; 6; 7; 8] 4 0x01020304.
Proof.
  refine (proj2 (proj2 (proj2 (proj2 (proj2
    (PutUint32_frame [1; 2; 3; 4; 5; 6; 7; 8] 4 0xCAFEF00D _))))) 0x01020304).
  cbn. lia.
Defined.

(** ** Unique identifier: the 64-bit value *)

Lemma UniqueID_of_reads (K : ClockGates) (W : Type)
  (d : Driver OcotpCall W) (w : W) (w1 w2 : Z) :
  fuse_reads (history d (UniqueID K) w) = [(0, 1, w1); (0, 2, w2)] ->
  fst (run d (UniqueID K) w)
  = [byte w1; byte (U32.shr w1 8); byte (U32.shr w1 16); byte (U32.shr w1 24)]
    ++ [byte w2; byte (U32.shr w2 8); byte (U32.shr w2 16);
        byte (U32.shr w2 24)].
Proof.
  intros Hreads.
  destruct (UniqueID_unfold K W d w) as [Hrun Hhist]. cbn zeta in Hrun, Hhist.
  rewrite Hhist in Hreads. cbn [fuse_reads fuse_read] in Hreads.
  injection Hreads as H1 H2.
  rewrite Hrun. cbn [fst]. rewrite H1, H2, PutUint32_uid. reflexivity.
Qed.

Lemma le_value_app4 (a0 a1 a2 a3 : Z) (t : list Z) :
  le_value ([a0; a1; a2; a3] ++ t)
  = le_value [a0; a1; a2; a3] + 2 ^ 32 * le_value t.
Proof.
  cbn [app le_value]. change (2 ^ 32) with 4294967296. lia.
Qed.

(** X2.  Read as one little-endian number, the identifier [UniqueID]
    returns is the 64-bit value [w1 + 2^32 * w2] of the two fuse words read,
    and it determines them: two runs, on any drivers, return the same
    identifier exactly when their reads returned the same two words. *)
Theorem UniqueID_value (K : ClockGates) (W : Type)
  (d : Driver OcotpCall W) (w : W) (w1 w2 : Z) :
  U32.in_range w1 ->
  U32.in_range w2 ->
  fuse_reads (history d (UniqueID K) w) = [(0, 1, w1); (0, 2, w2)] ->
  le_value (fst (run d (UniqueID K) w)) = w1 + 2 ^ 32 * w2
  /\ 0 <= le_value (fst (run d (UniqueID K) w)) < 2 ^ 64
  /\ (forall (W' : Type) (d' : Driver OcotpCall W') (w' : W') (w1' w2' : Z),
        U32.in_range w1' ->
        U32.in_range w2' ->
        fuse_reads (history d' (UniqueID K) w') = [(0, 1, w1'); (0, 2, w2')] ->
        (fst (run d' (UniqueID K) w') = fst (run d (UniqueID K) w)
         <-> w1' = w1 /\ w2' = w2)).
Proof.
  intros Hw1 Hw2 Hreads.
  assert (Hval : forall (V : Type) (e : Driver OcotpCall V) (x : V) (a b : Z),
             U32.in_range a -> U32.in_range b ->
             fuse_reads (history e (UniqueID K) x) = [(0, 1, a); (0, 2, b)] ->
             le_value (fst (run e (UniqueID K) x)) = a + 2 ^ 32 * b).
  { intros V e x a b Ha Hb Hr.
    rewrite (UniqueID_of_reads K V e x a b Hr), le_value_app4.
    rewrite !le_value_bytes_of_word by assumption. reflexivity. }
  split; [now apply Hval |].
  split.
  { rewrite (Hval W d w w1 w2) by assumption.
    unfold U32.in_range, U32.modulus, U32.width in Hw1, Hw2.
    change (2 ^ 32) with 4294967296 in *.
    change (2 ^ 64) with 18446744073709551616. lia. }
  intros W' d' w' w1' w2' Hw1' Hw2' Hreads'. split.
  - intros Heq. apply (f_equal le_value) in Heq.
    rewrite (Hval W' d' w' w1' w2'), (Hval W d w w1 w2) in Heq by assumption.
    unfold U32.in_range, U32.modulus, U32.width in *.
    change (2 ^ 32) with 4294967296 in *. lia.
  - intros [-> ->].
    rewrite (UniqueID_of_reads K W' d' w' w1 w2 Hreads').
    rewrite (UniqueID_of_reads K W d w w1 w2 Hreads). reflexivity.
Qed.

Lemma UniqueID_value_witness :
  le_value (fst (run fusebox_driver (UniqueID sample_gates) sample_fusebox))
  = 0x9ABCDEF012345678.
Proof.
  refine (eq_trans (proj1
    (UniqueID_value sample_gates FuseBox fusebox_driver sample_fusebox
       0x12345678 0x9ABCDEF0 _ _ _)) _).
  - unfold U32.in_range, U32.modulus, U32.width. lia.
  - unfold U32.in_range, U32.modulus, U32.width. lia.
  - vm_compute. reflexivity.
  - reflexivity.
Defined.

(** ** Clock gates of the instances *)

Lemma NoDup3 (a b c : Z) : NoDup [a; b; c] -> a <> b /\ a <> c /\ b <> c.
Proof.
  intros H. inversion H as [| x l Ha Hbc]; subst.
  inversion Hbc as [| y l' Hb _]; subst.
  cbn [In] in Ha, Hb. repeat split; intros E; subst; tauto.
Qed.

(** X5.  Where the three control registers the instances name are distinct
    and the gate fields named within one register are distinct, the two USB
    controllers are the only instances that share a clock gate: two
    instances under different names with the same (CCGR, CG) pair are USB1
    and USB2.  Eight instances have a clock gate; the others have none. *)
Theorem only_USB_shares_gate (K : ClockGates) :
  NoDup [CCM_CCGR1 K; CCM_CCGR2 K; CCM_CCGR6 K] ->
  NoDup [CCGRx_CG3 K; CCGRx_CG5 K; CCGRx_CG6 K] ->
  NoDup [CCGRx_CG0 K; CCGRx_CG1 K; CCGRx_CG2 K] ->
  (forall n1 p1 n2 p2 g,
      In (n1, p1) (instances K) -> In (n2, p2) (instances K) ->
      gate_of p1 = Some g -> gate_of p2 = Some g ->
      n1 <> n2 ->
      (n1 = "USB1" /\ n2 = "USB2")%string
      \/ (n1 = "USB2" /\ n2 = "USB1")%string)
  /\ map fst (filter (fun np => match gate_of (snd np) with
                                | Some _ => true
                                | None => false
                                end) (instances K))
     = ["CSU"; "I2C1"; "I2C2"; "OCOTP"; "USB1"; "USB2"; "USDHC1";
        "USDHC2"]%string.
Proof.
  intros Hr H2 H6.
  apply NoDup3 in Hr. destruct Hr as (Hr12 & Hr16 & Hr26).
  apply NoDup3 in H2. destruct H2 as (H35 & H36 & H56).
  apply NoDup3 in H6. destruct H6 as (H01 & H02 & H12).
  split; [| reflexivity].
  intros n1 p1 n2 p2 g I1 I2 G1 G2 Hne.
  pick_instance I1; gate_fields G1; try discriminate G1;
    injection G1 as <-;
    pick_instance I2; gate_fields G2; try discriminate G2;
    first [ exfalso; apply Hne; reflexivity
          | left; split; reflexivity
          | right; split; reflexivity
          | exfalso; injection G2; intros; congruence ].
Qed.

Lemma only_USB_shares_gate_witness :
  gate_of (PUsdhc (USDHC1 sample_gates)) <> gate_of (PUsb (USB1 sample_gates)).
Proof.
  assert (Hr : NoDup [CCM_CCGR1 sample_gates; CCM_CCGR2 sample_gates;
                      CCM_CCGR6 sample_gates]).
  { apply NoDup_Z_check. vm_compute. reflexivity. }
  assert (H2 : NoDup [CCGRx_CG3 sample_gates; CCGRx_CG5 sample_gates;
                      CCGRx_CG6 sample_gates]).
  { apply NoDup_Z_check. vm_compute. reflexivity. }
  assert (H6 : NoDup [CCGRx_CG0 sample_gates; CCGRx_CG1 sample_gates;
                      CCGRx_CG2 sample_gates]).
  { apply NoDup_Z_check. vm_compute. reflexivity. }
  intros E.
  destruct (proj1 (only_USB_shares_gate sample_gates Hr H2 H6)
              "USDHC1"%string (PUsdhc (USDHC1 sample_gates))
              "USB1"%string (PUsb (USB1 sample_gates))
              (0x020c4080, 0)) as [[H _] | [H _]].
  - cbn. tauto.
  - cbn. tauto.
  - rewrite E. reflexivity.
  - reflexivity.
  - discriminate.
  - discriminate H.
  - discriminate H.
Defined.

(** ** Register addresses of the instances *)

Lemma register_addresses_value (K : ClockGates) :
  register_addresses K
  = [CSU_BASE; DCP_BASE; GPIO1_BASE; GPIO2_BASE; GPIO3_BASE; GPIO4_BASE;
     GPIO5_BASE; I2C1_BASE; I2C2_BASE; OCOTP_BASE; OCOTP_BANK_BASE;
     RNGB_BASE; SNVS_BASE; TZASC_BASE; TZASC_BYPASS; IOMUXC_GPR_GPR1;
     UART1_BASE; UART2_BASE;
     USB1_BASE; USB_ANALOG1_BASE; USBPHY1_BASE;
     USB2_BASE; USB_ANALOG2_BASE; USBPHY2_BASE;
     USDHC1_BASE; USDHC2_BASE; USB_ANALOG_DIGPROG].
Proof. reflexivity. Qed.

Lemma Forall_check (P : Z -> Prop) (f : Z -> bool) (l : list Z) :
  (forall a, f a = true -> P a) -> forallb f l = true -> Forall P l.
Proof.
  intros Hf H. apply Forall_forall. intros a Ha.
  apply Hf. rewrite forallb_forall in H. now apply H.
Qed.

(** X6.  Every register address the package binds into an instance, and the
    identification register [SiliconVersion] loads, is a [uint32] aligned on
    four bytes that lies outside the on-chip RAM; the addresses are pairwise
    distinct, and the boot-lock position of the TrustZone controller is a
    bit position of a 32-bit register. *)
Theorem register_addresses_wellformed (K : ClockGates) :
  Forall (fun a => U32.in_range a /\ a mod 4 = 0 /\ ~ in_OCRAM a)
         (register_addresses K)
  /\ NoDup (register_addresses K)
  /\ 0 <= tzc380.SecureBootLockPos TZASC < U32.width.
Proof.
  rewrite register_addresses_value.
  split; [| split].
  - apply (Forall_check _
             (fun a => (0 <=? a) && (a <? 2 ^ 32) && (a mod 4 =? 0)
                       && negb ((OCRAM_START <=? a)
                                && (a <? OCRAM_START + OCRAM_SIZE)))).
    + intros a H.
      apply andb_prop in H. destruct H as [H Hram].
      apply andb_prop in H. destruct H as [H Hal].
      apply andb_prop in H. destruct H as [Hlo Hhi].
      apply Z.leb_le in Hlo. apply Z.ltb_lt in Hhi. apply Z.eqb_eq in Hal.
      apply negb_true_iff in Hram.
      split; [split; assumption |].
      split; [exact Hal |].
      intros [H1 H2].
      apply Z.leb_le in H1. apply Z.ltb_lt in H2.
      rewrite H1, H2 in Hram. discriminate Hram.
    + vm_compute. reflexivity.
  - apply NoDup_Z_check. vm_compute. reflexivity.
  - vm_compute. split; [discriminate | reflexivity].
Qed.

(** ** Instance numbering *)

(** X7.  The numbered instances are numbered consistently: the index of an
    instance is the digit its variable name ends in, a driver type has one
    instance per index, and the base of the GPIO, I2C, USB and SD/MMC
    instances follows from the index (first base plus a fixed stride per
    index, [0x4000], or [0x200] for USB). *)
Theorem instance_numbering (K : ClockGates) (n : string) (p : Peripheral)
  (i : Z) :
  In (n, p) (instances K) ->
  index_of p = Some i ->
  1 <= i <= 5
  /\ String.get (String.length n - 1) n
     = Some (Ascii.ascii_of_nat (48 + Z.to_nat i))
  /\ (forall n' p',
        In (n', p') (instances K) ->
        driver_of p' = driver_of p -> index_of p' = Some i -> n' = n)
  /\ match p with
     | PGpio d => gpio.Base d = GPIO1_BASE + 0x4000 * (i - 1)
     | PI2c d => i2c.Base d = I2C1_BASE + 0x4000 * (i - 1)
     | PUsdhc d => usdhc.Base d = USDHC1_BASE + 0x4000 * (i - 1)
     | PUsb d => usb.Base d = USB1_BASE + 0x200 * (i - 1)
     | _ => True
     end.
Proof.
  intros I Hi.
  pick_instance I; cbn in Hi; try discriminate Hi; injection Hi as <-;
    (split; [lia |]);
    (split; [reflexivity |]);
    (split; [| first [exact Logic.I | reflexivity]]);
    intros n' p' I' Hd Hi';
    pick_instance I'; cbn in Hd; try discriminate Hd;
    cbn in Hi'; try discriminate Hi'; reflexivity.
Qed.

Lemma instance_numbering_witness :
  gpio.Base GPIO3 = GPIO1_BASE + 0x4000 * (3 - 1).
Proof.
  refine (proj2 (proj2 (proj2
    (instance_numbering sample_gates "GPIO3" (PGpio GPIO3) 3 _ _)))).
  - cbn. tauto.
  - reflexivity.
Defined.

(** ** Unique identifier: repeated calls *)

(** X8.  [UniqueID] keeps nothing between calls.  With a driver whose
    [Init] enables the fuse box without changing what the fuses read, and
    whose reads, once enabled, return what the fuses read and change
    neither, every call reads the same two words, and a second call returns
    the identifier of the first. *)
Theorem UniqueID_repeatable (K : ClockGates) (W : Type)
  (d : Driver OcotpCall W) (enabled : W -> bool) (fuse : W -> Z -> Z -> Z) :
  (forall w,
      enabled (snd (d _ (OcotpInit (OCOTP K)) w)) = true
      /\ forall bank word,
           fuse (snd (d _ (OcotpInit (OCOTP K)) w)) bank word
           = fuse w bank word) ->
  (forall bank word w,
      enabled w = true ->
      fst (fst (d _ (OcotpRead (OCOTP K) bank word) w)) = fuse w bank word
      /\ enabled (snd (d _ (OcotpRead (OCOTP K) bank word) w)) = true
      /\ forall bank' word',
           fuse (snd (d _ (OcotpRead (OCOTP K) bank word) w)) bank' word'
           = fuse w bank' word') ->
  forall w : W,
    fuse_reads (history d (UniqueID K) w)
    = [(0, 1, fuse w 0 1); (0, 2, fuse w 0 2)]
    /\ (forall bank word,
          fuse (snd (run d (UniqueID K) w)) bank word = fuse w bank word)
    /\ fst (run d (UniqueID K) (snd (run d (UniqueID K) w)))
       = fst (run d (UniqueID K) w).
Proof.
  intros Hinit Hread.
  assert (Hone : forall w,
             fuse_reads (history d (UniqueID K) w)
             = [(0, 1, fuse w 0 1); (0, 2, fuse w 0 2)]
             /\ (forall bank word,
                   fuse (snd (run d (UniqueID K) w)) bank word
                   = fuse w bank word)).
  { intros w.
    destruct (UniqueID_unfold K W d w) as [Hrun Hhist].
    cbn zeta in Hrun, Hhist. rewrite Hhist, Hrun.
    cbn [fuse_reads fuse_read snd].
    destruct (Hinit w) as [He0 Hf0].
    set (w1 := snd (d unit (OcotpInit (OCOTP K)) w)) in *.
    destruct (Hread 0 1 w1 He0) as (Hv1 & He1 & Hf1).
    set (w2 := snd (d _ (OcotpRead (OCOTP K) 0 1) w1)) in *.
    destruct (Hread 0 2 w2 He1) as (Hv2 & He2 & Hf2).
    split.
    - rewrite Hv1, Hv2, Hf1, !Hf0. reflexivity.
    - intros bank word. rewrite Hf2, Hf1, Hf0. reflexivity. }
  intros w. destruct (Hone w) as [Hr Hf].
  split; [exact Hr |]. split; [exact Hf |].
  destruct (Hone (snd (run d (UniqueID K) w))) as [Hr' _].
  rewrite !Hf in Hr'.
  rewrite (UniqueID_of_reads K W d _ _ _ Hr').
  rewrite (UniqueID_of_reads K W d _ _ _ Hr). reflexivity.
Qed.

Lemma UniqueID_repeatable_witness :
  fst (run fusebox_driver (UniqueID sample_gates)
         (snd (run fusebox_driver (UniqueID sample_gates) sample_fusebox)))
  = fst (run fusebox_driver (UniqueID sample_gates) sample_fusebox).
Proof.
  refine (proj2 (proj2
    (UniqueID_repeatable sample_gates FuseBox fusebox_driver gate_on
       (fun w bank word => if busy w then 0 else U32.wrap (fuses w bank word))
       _ _ sample_fusebox))).
  - intros w. split; [reflexivity | intros; reflexivity].
  - intros bank word w Hw. cbn. rewrite Hw. cbn.
    destruct (busy w) eqn:Hb; cbn; rewrite ?Hb; auto.
Defined.
